(** * SveltyCMS launcher scripts: [scripts/dev.ts] and [scripts/build.ts]

    A shallow embedding of the two launcher scripts and the properties of
    their orchestration: which target is spawned, in which mode, with which
    environment, how often the configuration validator and the shim
    directory creation run, and how a child's lifecycle events settle the
    launcher's promise.

    Conventions of the model.
    - A JavaScript string is a [string]; a character of it stands for one
      UTF-16 code unit below 256, so that the ECMAScript white space and
      line terminator code points in range are 9, 10, 11, 12, 13, 32, 160.
    - [process.env] and every environment object is a [gmap string string];
      an absent key is JavaScript's [undefined].
    - The process interacts with a [World]: the inherited environment, the
      platform's constants, the set of paths [fs.existsSync] reports, and
      the answers the outside gives to the calls the scripts make
      (temporary directory creation, symlink creation, the children's
      lifecycle events, the validator's verdict).
    - Script code lives in the monad [M]: it reads and updates the world,
      appends to a trace of [Effect]s, and ends in a [Res]: a value, a
      thrown error, [process.exit], a wait that never finishes, or
      termination by a signal.
    - [await f(...)] is one computation of [M]: the body of the promise
      executor, then the event loop until a listener settles the promise.
      A resolved promise is a normal return at the await, a rejected one
      a throw of the rejection's error.
    - Of the runtime, the model takes what Node documents: [console.*],
      [path.join], [os.tmpdir], [process.on] and [fs.existsSync] do not
      throw; [spawn] returns a child and reports a failure to start with
      an 'error' event; [fs.mkdtempSync] and [fs.symlinkSync] may throw;
      the imported validator may throw.
    - Console output is recorded by the statement that prints it ([Msg]),
      not by its text: banners and panels are out of scope. *)

From stdpp Require Import base gmap sets list strings pretty.
From Stdlib Require Import ZArith String Ascii List Lia.

Local Open Scope string_scope.
Local Open Scope list_scope.

(** ** JavaScript string helpers *)

Module Js.

(** ECMAScript WhiteSpace and LineTerminator, code units below 256. *)
Definition is_white_space (c : ascii) : bool :=
  existsb (N.eqb (N_of_ascii c)) [9; 10; 11; 12; 13; 32; 160]%N.

(** [String.prototype.trimStart]. *)
Fixpoint trimStart (s : string) : string :=
  match s with
  | EmptyString => EmptyString
  | String c s' => if is_white_space c then trimStart s' else s
  end.

(** [String.prototype.trimEnd]. *)
Fixpoint trimEnd (s : string) : string :=
  match s with
  | EmptyString => EmptyString
  | String c s' =>
      let t := trimEnd s' in
      if is_white_space c && String.eqb t EmptyString then EmptyString
      else String c t
  end.

(** [String.prototype.trim]. *)
Definition trim (s : string) : string := trimEnd (trimStart s).

(** [s.split(d)] for a one-character separator [d]. *)
Fixpoint split (d : ascii) (s : string) : list string :=
  match s with
  | EmptyString => [EmptyString]
  | String c s' =>
      if Ascii.eqb c d then EmptyString :: split d s'
      else match split d s' with
           | x :: xs => String c x :: xs
           | [] => [String c EmptyString]
           end
  end.

(** [xs.includes(x)] on an array of strings. *)
Definition includes (xs : list string) (x : string) : bool :=
  existsb (String.eqb x) xs.

(** [`${v}`] for a value that is a string or [undefined]. *)
Definition template_str (v : option string) : string :=
  match v with
  | Some s => s
  | None => "undefined"
  end.

(** [v || ''] for a value that is a string or [undefined]. *)
Definition or_empty (v : option string) : string :=
  match v with
  | Some s => s
  | None => ""
  end.

(** [`${code}`] for an exit code: an integer or [null]. *)
Definition template_code (code : option Z) : string :=
  match code with
  | Some n => pretty n
  | None => "null"
  end.

(** [code !== 0] for an exit code. *)
Definition strict_ne_zero (code : option Z) : bool :=
  match code with
  | Some n => negb (Z.eqb n 0)
  | None => true
  end.

End Js.

(** ** Values the scripts handle *)

Abbreviation Env := (gmap string string).

(** A thrown or emitted JavaScript error value. *)
Inductive Err : Type :=
| SysError (code : string)      (* raised by the runtime: ENOENT, EACCES, ... *)
| JsError (message : string).   (* [new Error(message)] *)

(** [SetupValidation], as the dev script reads it. *)
Record SetupValidation : Type := {
  complete : bool;
  reason : option string;
  missingFields : option (list string);
  warnings : option (list string)
}.

(** The [app] parameter of [launchApp]: ['setup-wizard' | 'cms']. *)
Inductive App : Type := SetupWizard | Cms.

Definition app_name (a : App) : string :=
  match a with
  | SetupWizard => "setup-wizard"
  | Cms => "cms"
  end.

(** What the event loop delivers while a child is awaited. *)
Inductive ProcEvent : Type :=
| ChildError (error : Err)       (* child.on('error') *)
| ChildExit (code : option Z)    (* child.on('exit'); [None] is a null code *)
| Sigint.                        (* SIGINT sent to the script's process *)

(** The options object given to [spawn]. *)
Record SpawnOptions : Type := {
  stdio : string;
  shell : bool;
  env : Env
}.

(** Console lines, by the statement that prints them. *)
Inductive Msg : Type :=
| MDevBanner | MBuildBanner
| MForceSetup | MSkipToSetup | MForceCms | MSkipToCms
| MChecking
| MValidationError (v : SetupValidation)
| MTip
| MCmsStarting
| MWarningsHeader | MWarningLine (w : string) | MBlank
| MLaunching (app : string) | MCommand (args : list string)
| MFailedToStart (app : string) (error : Err)
| MShutdown
| MLaunchFailed (error : Err)
| MFatal (error : Err)
| MBuilding (target : string) | MBuilt (target : string)
| MFailedToBuild (target : string) (error : Err)
| MBuildingAll | MAllBuilt
| MBuildFailed (error : Err)
| MShimFailed (error : Err).

Inductive Stream : Type := Log | Warn | Error.

(** What a run does to the outside, and what it receives, in order. *)
Inductive Effect : Type :=
| Console (s : Stream) (m : Msg)
| ValidatorCall
| MkdtempSync (prefix : string) (r : Err + string)
| SymlinkSync (target path : string) (r : option Err)
| OnExitRm (dir : string)
| OnSigint
| Spawn (file : string) (argv : list string) (opts : SpawnOptions)
| Kill (signal : string)
| Recv (ev : ProcEvent).

(** One spawned child: the events it causes, and what it does to the
    paths the parent can see. *)
Record ChildRun : Type := {
  cr_events : list ProcEvent;
  cr_writes : gset string -> gset string
}.

Record World : Type := {
  w_env : Env;                          (* process.env *)
  w_execPath : string;                  (* process.execPath *)
  w_tmpdir : string;                    (* os.tmpdir() *)
  w_delimiter : ascii;                  (* path.delimiter *)
  w_join : string -> string -> string;  (* path.join, two arguments *)
  w_fs : gset string;                   (* paths fs.existsSync reports *)
  w_mkdtemp : nat -> Err + string;      (* n-th next mkdtempSync: error or suffix *)
  w_symlink : nat -> option Err;        (* n-th next symlinkSync: error or success *)
  w_children : nat -> ChildRun;         (* n-th next spawned child *)
  w_validate : Err + SetupValidation    (* validateSetupConfiguration() *)
}.

Definition set_fs (f : gset string -> gset string) (w : World) : World :=
  {| w_env := w_env w; w_execPath := w_execPath w; w_tmpdir := w_tmpdir w;
     w_delimiter := w_delimiter w; w_join := w_join w;
     w_fs := f (w_fs w);
     w_mkdtemp := w_mkdtemp w; w_symlink := w_symlink w;
     w_children := w_children w; w_validate := w_validate w |}.

Definition set_children (c : nat -> ChildRun) (w : World) : World :=
  {| w_env := w_env w; w_execPath := w_execPath w; w_tmpdir := w_tmpdir w;
     w_delimiter := w_delimiter w; w_join := w_join w; w_fs := w_fs w;
     w_mkdtemp := w_mkdtemp w; w_symlink := w_symlink w;
     w_children := c;
     w_validate := w_validate w |}.

Definition set_mkdtemp (m : nat -> Err + string) (w : World) : World :=
  {| w_env := w_env w; w_execPath := w_execPath w; w_tmpdir := w_tmpdir w;
     w_delimiter := w_delimiter w; w_join := w_join w; w_fs := w_fs w;
     w_mkdtemp := m;
     w_symlink := w_symlink w;
     w_children := w_children w; w_validate := w_validate w |}.

Definition pop_mkdtemp (w : World) : World :=
  set_mkdtemp (fun n => w_mkdtemp w (S n)) w.

(** The answers to the calls still to come, after one was consumed. *)
Definition pop_symlink (w : World) : World :=
  {| w_env := w_env w; w_execPath := w_execPath w; w_tmpdir := w_tmpdir w;
     w_delimiter := w_delimiter w; w_join := w_join w; w_fs := w_fs w;
     w_mkdtemp := w_mkdtemp w;
     w_symlink := fun n => w_symlink w (S n);
     w_children := w_children w; w_validate := w_validate w |}.

Definition pop_child (w : World) : World :=
  set_children (fun n => w_children w (S n)) w.

(** ** The script monad *)

Inductive Res (A : Type) : Type :=
| Ret (a : A)          (* normal completion *)
| Throw (e : Err)      (* an exception, or a rejected promise at its await *)
| Exit (code : Z)      (* process.exit(code) *)
| Hang                 (* awaiting a promise that is never settled *)
| Killed.              (* terminated by a signal with no handler *)

Arguments Ret {A} a.
Arguments Throw {A} e.
Arguments Exit {A} code.
Arguments Hang {A}.
Arguments Killed {A}.

Record Run (A : Type) : Type := {
  result : Res A;
  world : World;
  trace : list Effect
}.

Arguments result {A} r.
Arguments world {A} r.
Arguments trace {A} r.

Definition M (A : Type) : Type := World -> Run A.

Definition ret {A} (a : A) : M A :=
  fun w => {| result := Ret a; world := w; trace := [] |}.

Definition throw {A} (e : Err) : M A :=
  fun w => {| result := Throw e; world := w; trace := [] |}.

Definition process_exit {A} (code : Z) : M A :=
  fun w => {| result := Exit code; world := w; trace := [] |}.

Definition hang {A} : M A :=
  fun w => {| result := Hang; world := w; trace := [] |}.

Definition killed {A} : M A :=
  fun w => {| result := Killed; world := w; trace := [] |}.

Definition emit (e : Effect) : M unit :=
  fun w => {| result := Ret tt; world := w; trace := [e] |}.

(** [after t r]: the run [r], preceded by the effects [t]. *)
Definition after {A} (t : list Effect) (r : Run A) : Run A :=
  {| result := result r; world := world r; trace := t ++ trace r |}.

Definition bind {A B} (m : M A) (k : A -> M B) : M B :=
  fun w =>
    let r := m w in
    match result r with
    | Ret a => after (trace r) (k a (world r))
    | Throw e => {| result := Throw e; world := world r; trace := trace r |}
    | Exit c => {| result := Exit c; world := world r; trace := trace r |}
    | Hang => {| result := Hang; world := world r; trace := trace r |}
    | Killed => {| result := Killed; world := world r; trace := trace r |}
    end.

(** [try { m } catch (e) { h e }]: only a thrown error is caught. *)
Definition try_catch {A} (m : M A) (h : Err -> M A) : M A :=
  fun w =>
    let r := m w in
    match result r with
    | Throw e => after (trace r) (h e (world r))
    | _ => r
    end.

Notation "'do' x <- m ; k" := (bind m (fun x => k))
  (at level 10, x name, m at level 100, k at level 200).
Notation "'run' m ; k" := (bind m (fun _ => k))
  (at level 10, m at level 100, k at level 200).

(** [xs.some(f)]: stops at the first element for which [f] is true. *)
Fixpoint some {A} (f : A -> M bool) (xs : list A) : M bool :=
  match xs with
  | [] => ret false
  | x :: xs' => do b <- f x; if b then ret true else some f xs'
  end.

(** [xs.forEach(f)]. *)
Fixpoint forEach {A} (f : A -> M unit) (xs : list A) : M unit :=
  match xs with
  | [] => ret tt
  | x :: xs' => run f x; forEach f xs'
  end.

(** ** Runtime primitives *)

Definition console_log (m : Msg) : M unit := emit (Console Log m).
Definition console_warn (m : Msg) : M unit := emit (Console Warn m).
Definition console_error (m : Msg) : M unit := emit (Console Error m).

(** [path.join(a, b)]. *)
Definition path_join (a b : string) : M string :=
  fun w => ret (w_join w a b) w.

(** [fs.existsSync(p)]: true or false, it does not throw. *)
Definition existsSync (p : string) : M bool :=
  fun w => ret (bool_decide (p ∈ w_fs w)) w.

(** [fs.mkdtempSync(prefix)]: the created directory's path, or a throw. *)
Definition mkdtempSync (prefix : string) : M string :=
  fun w =>
    match w_mkdtemp w 0 with
    | inl e =>
        {| result := Throw e; world := pop_mkdtemp w;
           trace := [MkdtempSync prefix (inl e)] |}
    | inr suffix =>
        let dir := prefix +:+ suffix in
        {| result := Ret dir;
           world := set_fs (fun fs => {[dir]} ∪ fs) (pop_mkdtemp w);
           trace := [MkdtempSync prefix (inr dir)] |}
    end.

(** [fs.symlinkSync(target, path)]. *)
Definition symlinkSync (target path : string) : M unit :=
  fun w =>
    match w_symlink w 0 with
    | Some e =>
        {| result := Throw e; world := pop_symlink w;
           trace := [SymlinkSync target path (Some e)] |}
    | None =>
        {| result := Ret tt;
           world := set_fs (fun fs => {[path]} ∪ fs) (pop_symlink w);
           trace := [SymlinkSync target path None] |}
    end.

(** [spawn(file, argv, opts)]: the child is started, or fails to start and
    says so with an 'error' event; its lifecycle events are returned. *)
Definition spawn (file : string) (argv : list string) (opts : SpawnOptions)
  : M (list ProcEvent) :=
  fun w =>
    let c := w_children w 0 in
    {| result := Ret (cr_events c);
       world := set_fs (cr_writes c) (pop_child w);
       trace := [Spawn file argv opts] |}.

(** [validateSetupConfiguration()], an import of the dev script. *)
Definition validateSetupConfiguration : M SetupValidation :=
  fun w =>
    match w_validate w with
    | inl e => {| result := Throw e; world := w; trace := [ValidatorCall] |}
    | inr v => {| result := Ret v; world := w; trace := [ValidatorCall] |}
    end.

(** ** The environment resolver, [getEnvWithBunx]

    The function is the same text in both scripts (dev.ts lines 60-102,
    build.ts lines 30-72). The local object [env] is assigned to in place;
    here every assignment makes the next [env]. The two statements of the
    [try] block that can throw come before the assignment to [env.PATH],
    so the [catch] block sees [env] without it. *)

Definition NO_DEPRECATION : string := "--no-deprecation".

(** Lines 61-66: the clone of [process.env] with the three overrides. *)
Definition base_env (penv : Env) : Env :=
  let env := penv in
  let env :=
    <["NODE_OPTIONS" :=
        Js.trim (Js.or_empty (env !! "NODE_OPTIONS") +:+ " " +:+ NO_DEPRECATION)]> env in
  let env := <["NX_TERMINAL_OUTPUT_FORMAT" := "text"]> env in
  let env := <["NX_NATIVE_LOGGING" := "false"]> env in
  env.

(** Lines 69-76: is there a [bunx] in some directory of [env.PATH]? *)
Definition bunxExists (env : Env) : M bool :=
  fun w =>
    let pathDirs := Js.split (w_delimiter w) (Js.or_empty (env !! "PATH")) in
    some (fun dir =>
            try_catch (do p <- path_join dir "bunx"; existsSync p)
                      (fun _ => ret false))
         pathDirs w.

Definition getEnvWithBunx : M Env :=
  fun w =>
    let env := base_env (w_env w) in
    (do found <- bunxExists env;
     if found then ret env
     else
       try_catch
         (do prefix <- path_join (w_tmpdir w) "sveltycms-bunx-";
          do tmpDir <- mkdtempSync prefix;
          let bunPath := w_execPath w in
          do link <- path_join tmpDir "bunx";
          run symlinkSync bunPath link;
          let env' :=
            <["PATH" := tmpDir +:+ String (w_delimiter w) "" +:+
                        Js.template_str (env !! "PATH")]> env in
          run emit (OnExitRm tmpDir);
          ret env')
         (fun err =>
            run console_warn (MShimFailed err);
            ret env)) w.

(** ** Promises and the event loop *)

Inductive Promise : Type :=
| Pending
| Resolved
| Rejected (e : Err).

(** [resolve()] and [reject(e)]: a settled promise stays as it is. *)
Definition resolve (p : Promise) : Promise :=
  match p with
  | Pending => Resolved
  | _ => p
  end.

Definition reject (e : Err) (p : Promise) : Promise :=
  match p with
  | Pending => Rejected e
  | _ => p
  end.

(** [await p], where [p] is settled by the listeners [on]: the event loop
    delivers the pending events one at a time; the continuation of the
    await runs as soon as a listener has settled [p]. *)
Fixpoint await (on : ProcEvent -> Promise -> M Promise)
               (evs : list ProcEvent) (p : Promise) {struct evs} : M unit :=
  match p with
  | Resolved => ret tt
  | Rejected e => throw e
  | Pending =>
      match evs with
      | [] => hang
      | ev :: evs' =>
          run emit (Recv ev);
          do p' <- on ev p;
          await on evs' p'
      end
  end.

(** ** scripts/dev.ts *)

Module Dev.

(** Lines 119-136: the listeners [launchApp] installs. *)
Definition launchApp_on (app : App) (ev : ProcEvent) (p : Promise) : M Promise :=
  match ev with
  | ChildError error =>
      run console_error (MFailedToStart (app_name app) error);
      ret (reject error p)
  | ChildExit code =>
      if Js.strict_ne_zero code then
        ret (reject (JsError (app_name app +:+ " exited with code " +:+
                              Js.template_code code)) p)
      else ret (resolve p)
  | Sigint =>
      run console_log MShutdown;
      run emit (Kill "SIGINT");
      process_exit 0
  end.

(** Lines 105-138, awaited: [await launchApp(app, production)]. *)
Definition launchApp (app : App) (production : bool) : M unit :=
  let command := if production then "build" else "dev" in
  let args := [command; app_name app] in
  run console_log (MLaunching (app_name app));
  run console_log (MCommand args);
  do env <- getEnvWithBunx;
  do child <- spawn "bun" ("x" :: "nx" :: args)
                {| stdio := "inherit"; shell := false; env := env |};
  run emit OnSigint;
  await (launchApp_on app) child Pending.

Definition has_warnings (v : SetupValidation) : bool :=
  match warnings v with
  | Some (_ :: _) => true
  | _ => false
  end.

(** Lines 23-26: the flags, read from [args = process.argv.slice(2)]. *)
Definition forceSetup (args : list string) : bool := Js.includes args "--setup".
Definition forceCms (args : list string) : bool := Js.includes args "--cms".
Definition isProduction (args : list string) : bool :=
  Js.includes args "--prod" || Js.includes args "--production".

(** Lines 143-183: the [try] block of [main]. *)
Definition main_try (args : list string) : M unit :=
  let forceSetup := forceSetup args in
  let forceCms := forceCms args in
  let isProduction := isProduction args in
  run console_log MDevBanner;
  if forceSetup then
    run console_log MForceSetup;
    run console_log MSkipToSetup;
    launchApp SetupWizard isProduction
  else if forceCms then
    run console_log MForceCms;
    run console_log MSkipToCms;
    launchApp Cms isProduction
  else
    run console_log MChecking;
    do validation <- validateSetupConfiguration;
    if negb (complete validation) then
      run console_log (MValidationError validation);
      run console_log MTip;
      launchApp SetupWizard isProduction
    else
      run console_log MCmsStarting;
      run (if has_warnings validation then
             run console_log MWarningsHeader;
             run forEach (fun w => console_log (MWarningLine w))
                         (default [] (warnings validation));
             console_log MBlank
           else ret tt);
      launchApp Cms isProduction.

(** Lines 141-188. *)
Definition main (args : list string) : M unit :=
  try_catch (main_try args)
    (fun error =>
       run console_error (MLaunchFailed error);
       process_exit 1).

(** Lines 190-193: the script. *)
Definition script (args : list string) : M unit :=
  try_catch (main args)
    (fun error =>
       run console_error (MFatal error);
       process_exit 1).

End Dev.

(** ** scripts/build.ts *)

Module Build.

(** Lines 87-99: the listeners [runBuild] installs. The script installs
    no SIGINT listener, so the signal ends the process. *)
Definition runBuild_on (target : string) (ev : ProcEvent) (p : Promise) : M Promise :=
  match ev with
  | ChildError error =>
      run console_error (MFailedToBuild target error);
      ret (reject error p)
  | ChildExit code =>
      if Js.strict_ne_zero code then
        ret (reject (JsError (target +:+ " build exited with code " +:+
                              Js.template_code code)) p)
      else
        run console_log (MBuilt target);
        ret (resolve p)
  | Sigint => killed
  end.

(** Lines 74-101, awaited: [await runBuild(target)]. *)
Definition runBuild (target : string) : M unit :=
  run console_log (MBuilding target);
  do env <- getEnvWithBunx;
  do child <- spawn "bun" ["x"; "nx"; "build"; target]
                {| stdio := "inherit"; shell := false;
                   env := <["FORCE_COLOR" := "1"]> env |};
  await (runBuild_on target) child Pending.

(** Lines 11-12: the flag, read from [args = process.argv.slice(2)]. *)
Definition buildAll (args : list string) : bool := Js.includes args "--all".

(** Lines 105-115: the [try] block of [main]. *)
Definition main_try (args : list string) : M unit :=
  let buildAll := buildAll args in
  run console_log MBuildBanner;
  if buildAll then
    run console_log MBuildingAll;
    run runBuild "setup-wizard";
    run runBuild "cms";
    console_log MAllBuilt
  else
    runBuild "cms".

(** Lines 103-120. *)
Definition main (args : list string) : M unit :=
  try_catch (main_try args)
    (fun error =>
       run console_error (MBuildFailed error);
       process_exit 1).

(** Lines 122-125: the script. *)
Definition script (args : list string) : M unit :=
  try_catch (main args)
    (fun error =>
       run console_error (MFatal error);
       process_exit 1).

End Build.

(** ** Observations on a trace *)

(** The argument vectors of the spawned children, in order. *)
Fixpoint spawned (t : list Effect) : list (list string) :=
  match t with
  | [] => []
  | Spawn _ argv _ :: t' => argv :: spawned t'
  | _ :: t' => spawned t'
  end.

(** How often the validator was invoked. *)
Fixpoint validator_calls (t : list Effect) : nat :=
  match t with
  | [] => 0
  | ValidatorCall :: t' => S (validator_calls t')
  | _ :: t' => validator_calls t'
  end.

(** The temporary directories created, in order. *)
Fixpoint tmp_dirs (t : list Effect) : list string :=
  match t with
  | [] => []
  | MkdtempSync _ (inr dir) :: t' => dir :: tmp_dirs t'
  | _ :: t' => tmp_dirs t'
  end.

(** The children's life as the script sees it: who was started, which
    event was received, in order. *)
Inductive Step : Type :=
| Started (argv : list string)
| Received (ev : ProcEvent).

Fixpoint lifecycle (t : list Effect) : list Step :=
  match t with
  | [] => []
  | Spawn _ argv _ :: t' => Started argv :: lifecycle t'
  | Recv ev :: t' => Received ev :: lifecycle t'
  | _ :: t' => lifecycle t'
  end.

(** ** Vocabulary of the properties *)

(** What every call of [getEnvWithBunx] in [w] has in common. *)
Record resolver_run (w : World) (r : Run Env) : Prop := {
  rr_returns : exists env', result r = Ret env';
  rr_children : w_children (world r) = w_children w;
  rr_validate : w_validate (world r) = w_validate w;
  rr_spawned : spawned (trace r) = [];
  rr_validator : validator_calls (trace r) = 0;
  rr_lifecycle : lifecycle (trace r) = [];
  rr_tmp_dirs : length (tmp_dirs (trace r)) <= 1
}.

(** What every awaited launch of a child with [argv] in [w] has in
    common. *)
Record launch_run (argv : list string) (w : World) (r : Run unit) : Prop := {
  lr_spawned : spawned (trace r) = [argv];
  lr_validator : validator_calls (trace r) = 0;
  lr_lifecycle :
    lifecycle (trace r)
    = Started argv :: match cr_events (w_children w 0) with
                      | [] => []
                      | ev :: _ => [Received ev]
                      end;
  lr_tmp_dirs : tmp_dirs (trace r) = tmp_dirs (trace (getEnvWithBunx w));
  lr_children : forall n, w_children (world r) n = w_children w (S n)
}.

(** Some directory of the inherited [PATH] has an entry named [bunx]
    that [fs.existsSync] reports. *)
Definition found_bunx (w : World) : bool :=
  existsb (fun dir => bool_decide (w_join w dir "bunx" ∈ w_fs w))
          (Js.split (w_delimiter w) (Js.or_empty (w_env w !! "PATH"))).

(** The argument of [mkdtempSync]. *)
Definition shim_prefix (w : World) : string :=
  w_join w (w_tmpdir w) "sveltycms-bunx-".

(** The environment returned when the shim in [tmpDir] was made. *)
Definition shim_env (w : World) (tmpDir : string) : Env :=
  <["PATH" := tmpDir +:+ String (w_delimiter w) "" +:+
              Js.template_str (w_env w !! "PATH")]> (base_env (w_env w)).

(** The three variables [base_env] sets. *)
Definition overridden (k : string) : Prop :=
  k = "NODE_OPTIONS" \/ k = "NX_TERMINAL_OUTPUT_FORMAT" \/ k = "NX_NATIVE_LOGGING".

(** [xs.indexOf(x)], with [None] for -1. *)
Fixpoint indexOf (xs : list string) (x : string) : option nat :=
  match xs with
  | [] => None
  | y :: xs' =>
      if String.eqb x y then Some 0
      else match indexOf xs' x with
           | Some i => Some (S i)
           | None => None
           end
  end.

(** Both flags are listed, [x] first. *)
Definition listed_before (x y : string) (xs : list string) : bool :=
  match indexOf xs x, indexOf xs y with
  | Some i, Some j => Nat.ltb i j
  | _, _ => false
  end.

(** What the dev script prints about the warnings of a complete
    configuration (lines 176-180). *)
Definition warning_lines (v : SetupValidation) : list Effect :=
  if Dev.has_warnings v then
    Console Log MWarningsHeader
    :: map (fun w => Console Log (MWarningLine w)) (default [] (warnings v))
    ++ [Console Log MBlank]
  else [].

(** The argument vector the dev script gives [bun] for [app]. *)
Definition dev_argv (args : list string) (app : App) : list string :=
  ["x"; "nx"; if Dev.isProduction args then "build" else "dev"; app_name app].

(** The argument vector the build script gives [bun] for [target]. *)
Definition build_argv (target : string) : list string :=
  ["x"; "nx"; "build"; target].

(** ** Example worlds *)

Module Posix.

(** [path.posix.normalize]'s walk over the segments of a path; [acc] is
    the result so far, last segment first. *)
Fixpoint normalize_segments (allowAboveRoot : bool) (segs acc : list string)
  : list string :=
  match segs with
  | [] => rev acc
  | seg :: segs' =>
      if String.eqb seg "" || String.eqb seg "." then
        normalize_segments allowAboveRoot segs' acc
      else if String.eqb seg ".." then
        match acc with
        | top :: acc' =>
            if String.eqb top ".." then
              normalize_segments allowAboveRoot segs' (seg :: acc)
            else normalize_segments allowAboveRoot segs' acc'
        | [] =>
            if allowAboveRoot then normalize_segments allowAboveRoot segs' [seg]
            else normalize_segments allowAboveRoot segs' []
        end
      else normalize_segments allowAboveRoot segs' (seg :: acc)
  end.

Definition join_with (sep : string) (xs : list string) : string :=
  match xs with
  | [] => ""
  | x :: xs' => fold_left (fun acc y => acc +:+ sep +:+ y) xs' x
  end.

Fixpoint ends_with_slash (s : string) : bool :=
  match s with
  | EmptyString => false
  | String c EmptyString => Ascii.eqb c "/"
  | String _ s' => ends_with_slash s'
  end.

(** [path.posix.normalize]. *)
Definition normalize (p : string) : string :=
  match p with
  | EmptyString => "."
  | String c _ =>
      let isAbsolute := Ascii.eqb c "/" in
      let trailingSeparator := ends_with_slash p in
      let body :=
        join_with "/" (normalize_segments (negb isAbsolute) (Js.split "/" p) []) in
      match body with
      | EmptyString =>
          if isAbsolute then "/" else if trailingSeparator then "./" else "."
      | _ =>
          let body := if trailingSeparator then body +:+ "/" else body in
          if isAbsolute then "/" +:+ body else body
      end
  end.

(** [path.posix.join(a, b)]. *)
Definition join (a b : string) : string :=
  match a, b with
  | EmptyString, EmptyString => "."
  | EmptyString, _ => normalize b
  | _, EmptyString => normalize a
  | _, _ => normalize (a +:+ "/" +:+ b)
  end.

(** A child that exits with [code] and leaves the paths alone. *)
Definition exits (code : Z) : ChildRun :=
  {| cr_events := [ChildExit (Some code)]; cr_writes := fun fs => fs |}.

(** A machine with [bun] installed and no [bunx]: temporary directories
    and symlinks can be made, every child exits with 0, the
    configuration is complete. *)
Definition no_bunx : World :=
  {| w_env := {[ "PATH" := "/usr/local/bin:/usr/bin" ]};
     w_execPath := "/usr/local/bin/bun";
     w_tmpdir := "/tmp";
     w_delimiter := ":";
     w_join := join;
     w_fs := {[ "/usr/local/bin/bun" ]};
     w_mkdtemp := fun n => inr (if Nat.eqb n 0 then "aaaaaa" else "bbbbbb");
     w_symlink := fun _ => None;
     w_children := fun _ => exits 0;
     w_validate :=
       inr {| complete := true; reason := None;
              missingFields := None; warnings := None |} |}.

(** The same machine where every child exits with [code]. *)
Definition child_exits (code : Z) : World :=
  set_children (fun _ => exits code) no_bunx.

(** The same machine where the first child exits with 1. *)
Definition first_child_fails : World :=
  set_children (fun n => exits (if Nat.eqb n 0 then 1 else 0)) no_bunx.

(** The same machine where no temporary directory can be made. *)
Definition no_tmp : World :=
  set_mkdtemp (fun _ => inl (SysError "EACCES")) no_bunx.

(** The same machine with another verdict of the validator. *)
Definition with_verdict (v : SetupValidation) : World :=
  {| w_env := w_env no_bunx; w_execPath := w_execPath no_bunx;
     w_tmpdir := w_tmpdir no_bunx; w_delimiter := w_delimiter no_bunx;
     w_join := w_join no_bunx; w_fs := w_fs no_bunx;
     w_mkdtemp := w_mkdtemp no_bunx; w_symlink := w_symlink no_bunx;
     w_children := w_children no_bunx;
     w_validate := inr v |}.

(** The same machine where no symlink can be made. *)
Definition no_link : World :=
  {| w_env := w_env no_bunx; w_execPath := w_execPath no_bunx;
     w_tmpdir := w_tmpdir no_bunx; w_delimiter := w_delimiter no_bunx;
     w_join := w_join no_bunx; w_fs := w_fs no_bunx;
     w_mkdtemp := w_mkdtemp no_bunx;
     w_symlink := fun _ => Some (SysError "EPERM");
     w_children := w_children no_bunx;
     w_validate := w_validate no_bunx |}.

(** The same machine started with no [PATH] at all. *)
Definition no_path : World :=
  {| w_env := ∅; w_execPath := w_execPath no_bunx;
     w_tmpdir := w_tmpdir no_bunx; w_delimiter := w_delimiter no_bunx;
     w_join := w_join no_bunx; w_fs := w_fs no_bunx;
     w_mkdtemp := w_mkdtemp no_bunx; w_symlink := w_symlink no_bunx;
     w_children := w_children no_bunx;
     w_validate := w_validate no_bunx |}.


(** The same machine where SIGINT arrives while the first child runs. *)
Definition interrupted : World :=
  set_children
    (fun _ => {| cr_events := [Sigint; ChildExit None];
                 cr_writes := fun fs => fs |})
    no_bunx.

(** The same machine with [bunx] installed next to [bun]. *)
Definition with_bunx : World :=
  set_fs (fun fs => {[ "/usr/local/bin/bunx" ]} ∪ fs) no_bunx.

End Posix.
(** ** Further observations on a trace *)

(** What [console.log], [console.warn] and [console.error] were given,
    in order. *)
Definition logged (t : list Effect) : list Msg :=
  omap (fun e => match e with Console Log m => Some m | _ => None end) t.

Definition warned (t : list Effect) : list Msg :=
  omap (fun e => match e with Console Warn m => Some m | _ => None end) t.

Definition errored (t : list Effect) : list Msg :=
  omap (fun e => match e with Console Error m => Some m | _ => None end) t.

(** The calls of [spawn], whole. *)
Definition spawn_calls (t : list Effect)
  : list (string * list string * SpawnOptions) :=
  omap (fun e => match e with
                 | Spawn file argv opts => Some (file, argv, opts)
                 | _ => None
                 end) t.

(** The directories an exit hook was registered for. *)
Definition exit_hooks (t : list Effect) : list string :=
  omap (fun e => match e with OnExitRm dir => Some dir | _ => None end) t.

(** The signals sent to the child. *)
Definition kills (t : list Effect) : list string :=
  omap (fun e => match e with Kill signal => Some signal | _ => None end) t.

(** The first lifecycle event of the [n]-th child of [w], if any. *)
Definition first_event (w : World) (n : nat) : option ProcEvent :=
  head (cr_events (w_children w n)).

(** How an awaited launcher ends when the first event is [ev]: the
    error it throws, if it throws. *)
Definition exit_error (name : string) (code : option Z) : Err :=
  JsError (name +:+ " exited with code " +:+ Js.template_code code).

(** The target the dev script decides for, if it gets to decide: the
    validator may throw first. *)
Definition dev_target (args : list string) (w : World) : option App :=
  if Dev.forceSetup args then Some SetupWizard
  else if Dev.forceCms args then Some Cms
  else match w_validate w with
       | inr v => Some (if complete v then Cms else SetupWizard)
       | inl _ => None
       end.

(** The warnings the dev script lists line by line. *)
Definition warning_prints (t : list Effect) : list string :=
  omap (fun e => match e with
                 | Console Log (MWarningLine x) => Some x
                 | _ => None
                 end) t.

(** How a script ends once a child was launched, by the child's first
    event; [on_sigint] is what SIGINT does to the script. *)
Definition launch_status (on_sigint : Res unit) (ev : option ProcEvent) : Res unit :=
  match ev with
  | None => Hang
  | Some (ChildError _) => Exit 1
  | Some (ChildExit code) => if Js.strict_ne_zero code then Exit 1 else Ret tt
  | Some Sigint => on_sigint
  end.

(** What the dev script gives [console.error] once [app] was launched. *)
Definition dev_errors (app : App) (ev : option ProcEvent) : list Msg :=
  match ev with
  | Some (ChildError e) => [MFailedToStart (app_name app) e; MLaunchFailed e]
  | Some (ChildExit code) =>
      if Js.strict_ne_zero code
      then [MLaunchFailed (exit_error (app_name app) code)]
      else []
  | _ => []
  end.

(** What the build script gives [console.error] for the build of
    [target]. *)
Definition build_errors (target : string) (ev : option ProcEvent) : list Msg :=
  match ev with
  | Some (ChildError e) => [MFailedToBuild target e; MBuildFailed e]
  | Some (ChildExit code) =>
      if Js.strict_ne_zero code
      then [MBuildFailed (JsError (target +:+ " build exited with code " +:+
                                   Js.template_code code))]
      else []
  | _ => []
  end.

(** The first event is an exit with code 0. *)
Definition succeeded (ev : option ProcEvent) : bool :=
  match ev with
  | Some (ChildExit code) => negb (Js.strict_ne_zero code)
  | _ => false
  end.

(** An environment made from [penv] by the resolver: the three
    overrides, and every other variable but [PATH] as in [penv]. *)
Definition resolved_from (penv env' : Env) : Prop :=
  env' !! "NODE_OPTIONS"
  = Some (Js.trimStart (Js.or_empty (penv !! "NODE_OPTIONS") +:+ " ")
          +:+ NO_DEPRECATION) /\
  env' !! "NX_TERMINAL_OUTPUT_FORMAT" = Some "text" /\
  env' !! "NX_NATIVE_LOGGING" = Some "false" /\
  (forall k, ~ overridden k -> k <> "PATH" -> env' !! k = penv !! k).

(** The character [c] occurs in [s]. *)
Fixpoint has_char (c : ascii) (s : string) : bool :=
  match s with
  | EmptyString => false
  | String x s' => Ascii.eqb x c || has_char c s'
  end.

(** [s] starts with a character that is not white space. *)
Definition starts_black (s : string) : bool :=
  match s with
  | EmptyString => false
  | String c _ => negb (Js.is_white_space c)
  end.

(** ** Banners and panels: the text given to [console.log]

    The banner and the setup panel are printed with box-drawing
    characters and emoji, so their text is kept as UTF-16 code units:
    [text.length], [padEnd] and [repeat] count those. A [string] of the
    rest of the file is embedded with [units]. *)

Module Panel.

Abbreviation ustring := (list N).

Definition units (s : string) : ustring :=
  map N_of_ascii (list_ascii_of_string s).

Definition NL : N := 10.          (* \n *)
Definition SP : N := 32.          (* space *)
Definition ESC : N := 27.         (* \x1b *)
Definition BOX_TL : N := 0x2554.  (* ╔ *)
Definition BOX_H : N := 0x2550.   (* ═ *)
Definition BOX_TR : N := 0x2557.  (* ╗ *)
Definition BOX_V : N := 0x2551.   (* ║ *)
Definition BOX_BL : N := 0x255A.  (* ╚ *)
Definition BOX_BR : N := 0x255D.  (* ╝ *)
Definition BOX_ML : N := 0x2560.  (* ╠ *)
Definition BOX_MR : N := 0x2563.  (* ╣ *)
Definition CROSS : N := 0x274C.   (* the cross mark of a missing field *)
Definition WARNING : N := 0x26A0. (* the warning sign *)
Definition VS16 : N := 0xFE0F.    (* the variation selector after it *)

(** [s.repeat(count)]; [None] is the RangeError of a negative count. *)
Definition repeat (s : ustring) (count : Z) : option ustring :=
  if (count <? 0)%Z then None
  else Some (concat (replicate (Z.to_nat count) s)).

(** [s.padEnd(targetLength)], padding with spaces. *)
Definition padEnd (s : ustring) (targetLength : nat) : ustring :=
  s ++ replicate (targetLength - length s) SP.

(** [xs.join(sep)]. *)
Definition join (sep : ustring) (xs : list ustring) : ustring :=
  match xs with
  | [] => []
  | x :: xs' => x ++ concat (map (fun y => sep ++ y) xs')
  end.

(** *** [printBanner] (dev.ts lines 29-45, build.ts lines 14-27) *)

Inductive Color : Type := green | yellow | red.

Definition colors_green : ustring := ESC :: units "[32m".
Definition colors_yellow : ustring := ESC :: units "[33m".
Definition colors_red : ustring := ESC :: units "[31m".
Definition colors_reset : ustring := ESC :: units "[0m".
Definition colors_bold : ustring := ESC :: units "[1m".

Definition colors (color : Color) : ustring :=
  match color with
  | green => colors_green
  | yellow => colors_yellow
  | red => colors_red
  end.

(** The template of both [printBanner]s, for the colour code [c]. The
    substitutions are evaluated from left to right; the first
    [repeat] that throws ends the evaluation. *)
Definition banner_template (c text : ustring) (width padding : Z)
  : option ustring :=
  match repeat [BOX_H] width with
  | None => None
  | Some top =>
  match repeat [SP] padding with
  | None => None
  | Some before =>
  match repeat [SP] (width - padding - Z.of_nat (length text)) with
  | None => None
  | Some after_ =>
  match repeat [BOX_H] width with
  | None => None
  | Some bottom =>
      Some ([NL] ++ c ++ [BOX_TL] ++ top ++ [BOX_TR] ++ colors_reset
            ++ [NL] ++ c ++ [BOX_V] ++ before ++ colors_bold ++ text
            ++ colors_reset ++ c ++ after_ ++ [BOX_V] ++ colors_reset
            ++ [NL] ++ c ++ [BOX_BL] ++ bottom ++ [BOX_BR] ++ colors_reset
            ++ [NL])
  end end end end.

(** dev.ts: what [printBanner(text, color)] prints; [None] when it
    throws. *)
Definition printBanner (text : ustring) (color : Color) : option ustring :=
  let c := colors color in
  let width := 65%Z in
  let padding := Z.max 0 ((width - Z.of_nat (length text) - 2) / 2) in
  banner_template c text width padding.

(** build.ts: what [printBanner(text)] prints; [None] when it throws. *)
Definition build_printBanner (text : ustring) : option ustring :=
  let width := 65%Z in
  let padding := Z.max 0 ((width - Z.of_nat (length text) - 2) / 2) in
  banner_template colors_green text width padding.

(** The banner texts of the two scripts: a rocket, resp. a crane with
    its variation selector, then the words. *)
Definition dev_banner_text : ustring :=
  [0xD83D; 0xDE80]%N ++ units " SveltyCMS Development Launcher".
Definition build_banner_text : ustring :=
  [0xD83C; 0xDFD7; VS16]%N ++ units "  SveltyCMS Build".

(** *** [printValidationError] (dev.ts lines 47-51) *)

Definition TOP : ustring := [BOX_TL] ++ replicate 63 BOX_H ++ [BOX_TR].
Definition TITLE : ustring :=
  [BOX_V] ++ units "                     " ++ [WARNING; VS16]
  ++ units "  SETUP REQUIRED  " ++ [WARNING; VS16]
  ++ units "                      " ++ [BOX_V].
Definition SEP : ustring := [BOX_ML] ++ replicate 63 BOX_H ++ [BOX_MR].
Definition BLANK : ustring :=
  [BOX_V] ++ units "                                                               " ++ [BOX_V].
Definition FIELDS_HEADER : ustring :=
  [BOX_V] ++ units "  Missing/Invalid Fields:                                      " ++ [BOX_V].
Definition WARNINGS_HEADER : ustring :=
  [BOX_V] ++ units "  Warnings:                                                    " ++ [BOX_V].
Definition STARTING : ustring :=
  [BOX_V] ++ units "  Starting setup wizard...                                     " ++ [BOX_V].
Definition BOTTOM : ustring := [BOX_BL] ++ replicate 63 BOX_H ++ [BOX_BR].

(** [validation.reason || 'Configuration missing']: an empty reason is
    falsy too. *)
Definition reason_or_default (v : SetupValidation) : string :=
  match reason v with
  | Some (String c s) => String c s
  | _ => "Configuration missing"
  end.

(** [xs && xs.length > 0]. *)
Definition present (xs : option (list string)) : bool :=
  match xs with
  | Some (_ :: _) => true
  | _ => false
  end.

Definition reason_row (v : SetupValidation) : ustring :=
  [BOX_V] ++ units "  " ++ padEnd (units (reason_or_default v)) 61 ++ [BOX_V].

Definition field_row (f : string) : ustring :=
  [BOX_V] ++ units "    " ++ [CROSS] ++ units " " ++ padEnd (units f) 57 ++ [BOX_V].

Definition warning_row (w : string) : ustring :=
  [BOX_V] ++ units "    " ++ [WARNING; VS16] ++ units "  "
  ++ padEnd (units w) 56 ++ [BOX_V].

(** What [printValidationError(validation)] prints. *)
Definition printValidationError (v : SetupValidation) : ustring :=
  [NL] ++ TOP ++ [NL] ++ TITLE ++ [NL] ++ SEP ++ [NL] ++ BLANK ++ [NL]
  ++ reason_row v ++ [NL]
  ++ (if present (missingFields v) then
        BLANK ++ [NL] ++ FIELDS_HEADER ++ [NL]
        ++ join [NL] (map field_row (default [] (missingFields v)))
      else [])
  ++ [NL]
  ++ (if present (warnings v) then
        BLANK ++ [NL] ++ WARNINGS_HEADER ++ [NL]
        ++ join [NL] (map warning_row (default [] (warnings v)))
      else [])
  ++ [NL] ++ BLANK ++ [NL] ++ STARTING ++ [NL] ++ BLANK ++ [NL] ++ BOTTOM
  ++ [NL].

(** *** Vocabulary of the properties *)

(** The lines of a printed text: what is between its line feeds. *)
Fixpoint lines (s : ustring) : list ustring :=
  match s with
  | [] => [[]]
  | c :: s' =>
      if N.eqb c NL then [] :: lines s'
      else match lines s' with
           | x :: xs => (c :: x) :: xs
           | [] => [[c]]
           end
  end.

(** No line feed in [s]. *)
Definition one_line (s : ustring) : bool :=
  forallb (fun c => negb (N.eqb c NL)) s.

(** The banner with [l] spaces before the text and [r] after it. *)
Definition banner_layout (c text : ustring) (l r : nat) : ustring :=
  [NL] ++ c ++ [BOX_TL] ++ replicate 65 BOX_H ++ [BOX_TR] ++ colors_reset
  ++ [NL] ++ c ++ [BOX_V] ++ replicate l SP ++ colors_bold ++ text
  ++ colors_reset ++ c ++ replicate r SP ++ [BOX_V] ++ colors_reset
  ++ [NL] ++ c ++ [BOX_BL] ++ replicate 65 BOX_H ++ [BOX_BR] ++ colors_reset
  ++ [NL].

(** The lines of the setup panel, from the empty first line to the
    empty last one. *)
Definition panel_rows (v : SetupValidation) : list ustring :=
  [[]; TOP; TITLE; SEP; BLANK; reason_row v]
  ++ (if present (missingFields v)
      then [BLANK; FIELDS_HEADER] ++ map field_row (default [] (missingFields v))
      else [[]])
  ++ (if present (warnings v)
      then [BLANK; WARNINGS_HEADER] ++ map warning_row (default [] (warnings v))
      else [[]])
  ++ [BLANK; STARTING; BLANK; BOTTOM; []].

End Panel.

(** ** Strings: what [trim] leaves of an appended flag *)

Section TrimLemmas.

Lemma app_empty_l (t : string) : "" +:+ t = t.
Proof. reflexivity. Qed.

Lemma app_String (c : ascii) (s t : string) :
  String c s +:+ t = String c (s +:+ t).
Proof. reflexivity. Qed.

Lemma string_app_assoc (a b c : string) : (a +:+ b) +:+ c = a +:+ (b +:+ c).
Proof.
  induction a as [|x a IH]; [reflexivity|].
  rewrite !app_String. f_equal. exact IH.
Qed.

Lemma app_eq_empty (a b : string) : a +:+ b = "" -> b = "".
Proof. destruct a; [auto | rewrite app_String; discriminate]. Qed.

(** A string that [trimEnd] keeps whole and that is not empty protects
    everything before it. *)
Lemma trimEnd_app_kept (x t : string) :
  Js.trimEnd t = t -> t <> "" -> Js.trimEnd (x +:+ t) = x +:+ t.
Proof.
  intros Ht Hne. induction x as [|c x IH]; [exact Ht|].
  rewrite app_String. simpl. rewrite IH.
  destruct (String.eqb (x +:+ t) "") eqn:E.
  - apply String.eqb_eq, app_eq_empty in E. contradiction.
  - now rewrite andb_false_r.
Qed.

(** [trimStart] does not reach into a suffix that starts with a
    character that is not white space. *)
Lemma trimStart_app_kept (x : string) (c : ascii) (t : string) :
  Js.is_white_space c = false ->
  Js.trimStart (x +:+ String c t) = Js.trimStart x +:+ String c t.
Proof.
  intros Hc. induction x as [|d x IH].
  - rewrite app_empty_l. simpl. now rewrite Hc.
  - rewrite app_String. simpl.
    destruct (Js.is_white_space d); [exact IH | reflexivity].
Qed.

Lemma trim_append_flag (old : string) :
  Js.trim (old +:+ " " +:+ NO_DEPRECATION)
  = Js.trimStart (old +:+ " ") +:+ NO_DEPRECATION.
Proof.
  unfold Js.trim.
  rewrite <- string_app_assoc.
  unfold NO_DEPRECATION.
  rewrite trimStart_app_kept by reflexivity.
  apply trimEnd_app_kept; [reflexivity | discriminate].
Qed.

End TrimLemmas.

Section Resolver.

Lemma base_env_PATH (penv : Env) : base_env penv !! "PATH" = penv !! "PATH".
Proof. unfold base_env. now rewrite !lookup_insert_ne by discriminate. Qed.

Lemma some_existsSync (w : World) (dirs : list string) :
  some (fun dir =>
          try_catch (do p <- path_join dir "bunx"; existsSync p)
                    (fun _ => ret false)) dirs w
  = ret (existsb (fun dir => bool_decide (w_join w dir "bunx" ∈ w_fs w)) dirs) w.
Proof.
  induction dirs as [|dir dirs IH]; [reflexivity|].
  cbn [some existsb]. unfold bind at 1. cbn.
  destruct (bool_decide (w_join w dir "bunx" ∈ w_fs w)); cbn.
  - reflexivity.
  - rewrite IH. reflexivity.
Qed.

Lemma bunxExists_run (w : World) :
  bunxExists (base_env (w_env w)) w = ret (found_bunx w) w.
Proof.
  unfold bunxExists, found_bunx. rewrite base_env_PATH. apply some_existsSync.
Qed.

Lemma getEnvWithBunx_found (w : World) :
  found_bunx w = true ->
  getEnvWithBunx w = ret (base_env (w_env w)) w.
Proof.
  intros H. unfold getEnvWithBunx, bind. rewrite bunxExists_run, H. reflexivity.
Qed.

Lemma getEnvWithBunx_mkdtemp_throws (w : World) (e : Err) :
  found_bunx w = false -> w_mkdtemp w 0 = inl e ->
  getEnvWithBunx w
  = {| result := Ret (base_env (w_env w));
       world := pop_mkdtemp w;
       trace := [MkdtempSync (shim_prefix w) (inl e);
                 Console Warn (MShimFailed e)] |}.
Proof.
  intros H Hm. unfold getEnvWithBunx, bind at 1. rewrite bunxExists_run, H.
  cbn. unfold try_catch, bind, mkdtempSync. cbn. rewrite Hm. reflexivity.
Qed.

Lemma getEnvWithBunx_symlink_throws (w : World) (suffix : string) (e : Err) :
  found_bunx w = false -> w_mkdtemp w 0 = inr suffix -> w_symlink w 0 = Some e ->
  let tmpDir := shim_prefix w +:+ suffix in
  getEnvWithBunx w
  = {| result := Ret (base_env (w_env w));
       world := pop_symlink (set_fs (fun fs => {[tmpDir]} ∪ fs) (pop_mkdtemp w));
       trace := [MkdtempSync (shim_prefix w) (inr tmpDir);
                 SymlinkSync (w_execPath w) (w_join w tmpDir "bunx") (Some e);
                 Console Warn (MShimFailed e)] |}.
Proof.
  intros H Hm Hs. unfold getEnvWithBunx, bind at 1. rewrite bunxExists_run, H.
  cbn. unfold try_catch, bind, mkdtempSync, symlinkSync. cbn. rewrite Hm. cbn.
  rewrite Hs. reflexivity.
Qed.

Lemma getEnvWithBunx_shim (w : World) (suffix : string) :
  found_bunx w = false -> w_mkdtemp w 0 = inr suffix -> w_symlink w 0 = None ->
  let tmpDir := shim_prefix w +:+ suffix in
  getEnvWithBunx w
  = {| result := Ret (shim_env w tmpDir);
       world := set_fs (fun fs => {[w_join w tmpDir "bunx"]} ∪ fs)
                  (pop_symlink
                     (set_fs (fun fs => {[tmpDir]} ∪ fs) (pop_mkdtemp w)));
       trace := [MkdtempSync (shim_prefix w) (inr tmpDir);
                 SymlinkSync (w_execPath w) (w_join w tmpDir "bunx") None;
                 OnExitRm tmpDir] |}.
Proof.
  intros H Hm Hs. unfold getEnvWithBunx, bind at 1. rewrite bunxExists_run, H.
  cbn. unfold try_catch, bind, mkdtempSync, symlinkSync. cbn. rewrite Hm. cbn.
  rewrite Hs. cbn. unfold shim_env. rewrite base_env_PATH. reflexivity.
Qed.

End Resolver.

(** ** The monad: how runs compose *)

Section MonadLemmas.

Context {A B : Type}.

Lemma bind_Ret (m : M A) (k : A -> M B) (w w' : World) (a : A) (t : list Effect) :
  m w = {| result := Ret a; world := w'; trace := t |} ->
  bind m k w = after t (k a w').
Proof. intros H. unfold bind. rewrite H. reflexivity. Qed.

Lemma after_after (t1 t2 : list Effect) (r : Run A) :
  after t1 (after t2 r) = after (t1 ++ t2) r.
Proof. unfold after. cbn. now rewrite app_assoc. Qed.

Lemma result_after (t : list Effect) (r : Run A) : result (after t r) = result r.
Proof. reflexivity. Qed.

Lemma trace_after (t : list Effect) (r : Run A) : trace (after t r) = t ++ trace r.
Proof. reflexivity. Qed.

Lemma world_after (t : list Effect) (r : Run A) : world (after t r) = world r.
Proof. reflexivity. Qed.

End MonadLemmas.

(** ** The observations distribute over a trace's parts *)

Section Observations.

Lemma spawned_app (t1 t2 : list Effect) :
  spawned (t1 ++ t2) = spawned t1 ++ spawned t2.
Proof.
  induction t1 as [|e t1 IH]; [reflexivity|].
  destruct e; cbn; rewrite IH; reflexivity.
Qed.

Lemma validator_calls_app (t1 t2 : list Effect) :
  validator_calls (t1 ++ t2) = validator_calls t1 + validator_calls t2.
Proof.
  induction t1 as [|e t1 IH]; [reflexivity|].
  destruct e; cbn; rewrite IH; reflexivity.
Qed.

Lemma tmp_dirs_app (t1 t2 : list Effect) :
  tmp_dirs (t1 ++ t2) = tmp_dirs t1 ++ tmp_dirs t2.
Proof.
  induction t1 as [|e t1 IH]; [reflexivity|].
  destruct e as [| |? [?|?]| | | | | |]; cbn; rewrite IH; reflexivity.
Qed.

Lemma lifecycle_app (t1 t2 : list Effect) :
  lifecycle (t1 ++ t2) = lifecycle t1 ++ lifecycle t2.
Proof.
  induction t1 as [|e t1 IH]; [reflexivity|].
  destruct e; cbn; rewrite IH; reflexivity.
Qed.

End Observations.

(** Push an observation through the parts of a run's trace. *)
Ltac observe :=
  rewrite ?trace_after, ?spawned_app, ?validator_calls_app, ?lifecycle_app,
    ?tmp_dirs_app.

(** ** One call of the resolver *)

Section ResolverShape.

Lemma getEnvWithBunx_run (w : World) : resolver_run w (getEnvWithBunx w).
Proof.
  destruct (found_bunx w) eqn:Hf.
  { rewrite getEnvWithBunx_found by exact Hf.
    split; cbn; eauto. }
  destruct (w_mkdtemp w 0) as [e|suffix] eqn:Hm.
  { rewrite (getEnvWithBunx_mkdtemp_throws w e Hf Hm).
    split; cbn; eauto. }
  destruct (w_symlink w 0) as [e|] eqn:Hs.
  - rewrite (getEnvWithBunx_symlink_throws w suffix e Hf Hm Hs).
    split; cbn; eauto.
  - rewrite (getEnvWithBunx_shim w suffix Hf Hm Hs).
    split; cbn; eauto.
Qed.

End ResolverShape.

(** ** Awaiting a child *)

Section Await.

Lemma await_Resolved (on : ProcEvent -> Promise -> M Promise) (evs : list ProcEvent) :
  await on evs Resolved = ret tt.
Proof. destruct evs; reflexivity. Qed.

Lemma await_Rejected (on : ProcEvent -> Promise -> M Promise) (evs : list ProcEvent)
      (e : Err) :
  await on evs (Rejected e) = throw e.
Proof. destruct evs; reflexivity. Qed.

(** The first event settles [launchApp]'s promise, or ends the process. *)
Lemma await_launchApp (app : App) (evs : list ProcEvent) (w : World) :
  await (Dev.launchApp_on app) evs Pending w =
  match evs with
  | [] => hang w
  | ChildError e :: _ =>
      {| result := Throw e; world := w;
         trace := [Recv (ChildError e);
                   Console Error (MFailedToStart (app_name app) e)] |}
  | ChildExit code :: _ =>
      {| result :=
           if Js.strict_ne_zero code then
             Throw (JsError (app_name app +:+ " exited with code " +:+
                             Js.template_code code))
           else Ret tt;
         world := w;
         trace := [Recv (ChildExit code)] |}
  | Sigint :: _ =>
      {| result := Exit 0; world := w;
         trace := [Recv Sigint; Console Log MShutdown; Kill "SIGINT"] |}
  end.
Proof.
  destruct evs as [|[e|code|] evs]; [reflexivity | | | reflexivity].
  - cbn [await]. unfold bind. cbn. rewrite await_Rejected. reflexivity.
  - cbn [await]. unfold bind. cbn -[Js.template_code].
    destruct (Js.strict_ne_zero code); cbn -[Js.template_code].
    + rewrite await_Rejected. reflexivity.
    + rewrite await_Resolved. reflexivity.
Qed.

(** The first event settles [runBuild]'s promise, or ends the process. *)
Lemma await_runBuild (target : string) (evs : list ProcEvent) (w : World) :
  await (Build.runBuild_on target) evs Pending w =
  match evs with
  | [] => hang w
  | ChildError e :: _ =>
      {| result := Throw e; world := w;
         trace := [Recv (ChildError e);
                   Console Error (MFailedToBuild target e)] |}
  | ChildExit code :: _ =>
      if Js.strict_ne_zero code then
        {| result := Throw (JsError (target +:+ " build exited with code " +:+
                                     Js.template_code code));
           world := w;
           trace := [Recv (ChildExit code)] |}
      else
        {| result := Ret tt; world := w;
           trace := [Recv (ChildExit code); Console Log (MBuilt target)] |}
  | Sigint :: _ =>
      {| result := Killed; world := w; trace := [Recv Sigint] |}
  end.
Proof.
  destruct evs as [|[e|code|] evs]; [reflexivity | | | reflexivity].
  - cbn [await]. unfold bind. cbn. rewrite await_Rejected. reflexivity.
  - cbn [await]. unfold bind. cbn -[Js.template_code].
    destruct (Js.strict_ne_zero code); cbn -[Js.template_code].
    + rewrite await_Rejected. reflexivity.
    + rewrite await_Resolved. reflexivity.
Qed.

End Await.

(** ** One awaited launch *)

Section Launch.

Lemma launchApp_eq (app : App) (production : bool) (w : World) :
  Dev.launchApp app production w =
  let g := getEnvWithBunx w in
  let command := if production then "build" else "dev" in
  match result g with
  | Ret env' =>
      after ([Console Log (MLaunching (app_name app));
              Console Log (MCommand [command; app_name app])]
             ++ trace g
             ++ [Spawn "bun" ["x"; "nx"; command; app_name app]
                   {| stdio := "inherit"; shell := false; env := env' |};
                 OnSigint])
            (await (Dev.launchApp_on app) (cr_events (w_children w 0)) Pending
                   (set_fs (cr_writes (w_children w 0)) (pop_child (world g))))
  | _ => hang w
  end.
Proof.
  destruct (getEnvWithBunx_run w) as [[env' Hr] Hc _ _ _ _ _].
  cbv zeta. rewrite Hr.
  unfold Dev.launchApp.
  unfold bind at 1. cbn [console_log emit result world trace].
  unfold bind at 1. cbn [console_log emit result world trace].
  unfold bind at 1. rewrite Hr.
  unfold bind at 1. cbn [spawn result world trace]. rewrite Hc.
  unfold bind at 1. cbn [emit result world trace].
  rewrite ?after_after. f_equal; rewrite <- ?app_assoc; reflexivity.
Qed.

Lemma runBuild_eq (target : string) (w : World) :
  Build.runBuild target w =
  let g := getEnvWithBunx w in
  match result g with
  | Ret env' =>
      after ([Console Log (MBuilding target)]
             ++ trace g
             ++ [Spawn "bun" ["x"; "nx"; "build"; target]
                   {| stdio := "inherit"; shell := false;
                      env := <["FORCE_COLOR" := "1"]> env' |}])
            (await (Build.runBuild_on target) (cr_events (w_children w 0)) Pending
                   (set_fs (cr_writes (w_children w 0)) (pop_child (world g))))
  | _ => hang w
  end.
Proof.
  destruct (getEnvWithBunx_run w) as [[env' Hr] Hc _ _ _ _ _].
  cbv zeta. rewrite Hr.
  unfold Build.runBuild.
  unfold bind at 1. cbn [console_log emit result world trace].
  unfold bind at 1. rewrite Hr.
  unfold bind at 1. cbn [spawn result world trace]. rewrite Hc.
  rewrite ?after_after. f_equal; rewrite <- ?app_assoc; reflexivity.
Qed.

End Launch.

Section LaunchFacts.

Lemma launchApp_run (app : App) (production : bool) (w : World) :
  launch_run ["x"; "nx"; if production then "build" else "dev"; app_name app]
             w (Dev.launchApp app production w).
Proof.
  rewrite launchApp_eq. cbv zeta.
  destruct (getEnvWithBunx_run w) as [[env' Hr] Hc _ Hs Hv Hl _].
  rewrite Hr, await_launchApp.
  destruct (cr_events (w_children w 0)) as [|[e|code|] evs] eqn:Hev;
    split; observe; rewrite ?Hs, ?Hv, ?Hl, ?world_after, ?Hev; cbn;
    rewrite ?app_nil_r, ?Hc; reflexivity.
Qed.

Lemma runBuild_run (target : string) (w : World) :
  launch_run ["x"; "nx"; "build"; target] w (Build.runBuild target w).
Proof.
  rewrite runBuild_eq. cbv zeta.
  destruct (getEnvWithBunx_run w) as [[env' Hr] Hc _ Hs Hv Hl _].
  rewrite Hr, await_runBuild.
  destruct (cr_events (w_children w 0)) as [|[e|code|] evs] eqn:Hev;
    try destruct (Js.strict_ne_zero code);
    split; observe; rewrite ?Hs, ?Hv, ?Hl, ?world_after, ?Hev; cbn;
    rewrite ?app_nil_r, ?Hc; reflexivity.
Qed.

(** How the awaited [launchApp] ends, by the first event of its child. *)
Lemma launchApp_result (app : App) (production : bool) (w : World) :
  result (Dev.launchApp app production w) =
  match cr_events (w_children w 0) with
  | [] => Hang
  | ChildError e :: _ => Throw e
  | ChildExit code :: _ =>
      if Js.strict_ne_zero code then
        Throw (JsError (app_name app +:+ " exited with code " +:+
                        Js.template_code code))
      else Ret tt
  | Sigint :: _ => Exit 0
  end.
Proof.
  rewrite launchApp_eq. cbv zeta.
  destruct (getEnvWithBunx_run w) as [[env' Hr] _ _ _ _ _ _].
  rewrite Hr, result_after, await_launchApp.
  destruct (cr_events (w_children w 0)) as [|[e|code|] evs]; reflexivity.
Qed.

(** How the awaited [runBuild] ends, by the first event of its child. *)
Lemma runBuild_result (target : string) (w : World) :
  result (Build.runBuild target w) =
  match cr_events (w_children w 0) with
  | [] => Hang
  | ChildError e :: _ => Throw e
  | ChildExit code :: _ =>
      if Js.strict_ne_zero code then
        Throw (JsError (target +:+ " build exited with code " +:+
                        Js.template_code code))
      else Ret tt
  | Sigint :: _ => Killed
  end.
Proof.
  rewrite runBuild_eq. cbv zeta.
  destruct (getEnvWithBunx_run w) as [[env' Hr] _ _ _ _ _ _].
  rewrite Hr, result_after, await_runBuild.
  destruct (cr_events (w_children w 0)) as [|[e|code|] evs];
    try destruct (Js.strict_ne_zero code); reflexivity.
Qed.

End LaunchFacts.

(** ** The top-level handlers *)

Section TopLevel.

(** [try { m } catch (error) { console.error(..., error); process.exit(c) }]. *)
Lemma try_catch_exit (m : M unit) (msg : Err -> Msg) (c : Z) (w : World) :
  try_catch m (fun error => run console_error (msg error); process_exit c) w =
  match result (m w) with
  | Throw e =>
      {| result := Exit c; world := world (m w);
         trace := trace (m w) ++ [Console Error (msg e)] |}
  | _ => m w
  end.
Proof.
  unfold try_catch. destruct (result (m w)); reflexivity.
Qed.

Lemma result_try_catch_exit (m : M unit) (msg : Err -> Msg) (c : Z) (w : World) :
  result (try_catch m (fun error => run console_error (msg error); process_exit c) w) =
  match result (m w) with
  | Throw e => Exit c
  | r => r
  end.
Proof. rewrite try_catch_exit. destruct (result (m w)) eqn:E; cbn; congruence. Qed.

Lemma trace_try_catch_exit (m : M unit) (msg : Err -> Msg) (c : Z) (w : World) :
  trace (try_catch m (fun error => run console_error (msg error); process_exit c) w) =
  trace (m w) ++ match result (m w) with
                 | Throw e => [Console Error (msg e)]
                 | _ => []
                 end.
Proof.
  rewrite try_catch_exit.
  destruct (result (m w)) eqn:E; cbn; now rewrite ?app_nil_r.
Qed.

(** The outer [.catch] of a script has nothing to catch: [main] handles
    every throw itself. *)
Lemma Dev_script_eq (args : list string) (w : World) :
  Dev.script args w = Dev.main args w.
Proof.
  unfold Dev.script. rewrite try_catch_exit.
  destruct (result (Dev.main args w)) eqn:E; try reflexivity.
  unfold Dev.main in E. rewrite result_try_catch_exit in E.
  destruct (result (Dev.main_try args w)); discriminate.
Qed.

Lemma Build_script_eq (args : list string) (w : World) :
  Build.script args w = Build.main args w.
Proof.
  unfold Build.script. rewrite try_catch_exit.
  destruct (result (Build.main args w)) eqn:E; try reflexivity.
  unfold Build.main in E. rewrite result_try_catch_exit in E.
  destruct (result (Build.main_try args w)); discriminate.
Qed.

End TopLevel.

(** ** The [try] blocks of the two [main]s *)

Section MainTry.

Lemma forEach_console_log (ws : list string) (w : World) :
  forEach (fun x => console_log (MWarningLine x)) ws w
  = {| result := Ret tt; world := w;
       trace := map (fun x => Console Log (MWarningLine x)) ws |}.
Proof.
  induction ws as [|x ws IH]; [reflexivity|].
  cbn [forEach map]. unfold bind. cbn [console_log emit result world trace].
  rewrite IH. reflexivity.
Qed.

Lemma warnings_block (v : SetupValidation) (w : World) :
  (if Dev.has_warnings v then
     run console_log MWarningsHeader;
     run forEach (fun x => console_log (MWarningLine x)) (default [] (warnings v));
     console_log MBlank
   else ret tt) w
  = {| result := Ret tt; world := w; trace := warning_lines v |}.
Proof.
  unfold warning_lines. destruct (Dev.has_warnings v); [|reflexivity].
  unfold bind. cbn [console_log emit result world trace].
  rewrite forEach_console_log. reflexivity.
Qed.

Ltac step := unfold bind at 1; cbn [console_log emit result world trace].

Lemma Dev_main_try_eq (args : list string) (w : World) :
  Dev.main_try args w =
  if Dev.forceSetup args then
    after [Console Log MDevBanner; Console Log MForceSetup; Console Log MSkipToSetup]
          (Dev.launchApp SetupWizard (Dev.isProduction args) w)
  else if Dev.forceCms args then
    after [Console Log MDevBanner; Console Log MForceCms; Console Log MSkipToCms]
          (Dev.launchApp Cms (Dev.isProduction args) w)
  else
    match w_validate w with
    | inl e =>
        {| result := Throw e; world := w;
           trace := [Console Log MDevBanner; Console Log MChecking; ValidatorCall] |}
    | inr v =>
        if negb (complete v) then
          after [Console Log MDevBanner; Console Log MChecking; ValidatorCall;
                 Console Log (MValidationError v); Console Log MTip]
                (Dev.launchApp SetupWizard (Dev.isProduction args) w)
        else
          after ([Console Log MDevBanner; Console Log MChecking; ValidatorCall;
                  Console Log MCmsStarting] ++ warning_lines v)
                (Dev.launchApp Cms (Dev.isProduction args) w)
    end.
Proof.
  unfold Dev.main_try. cbv zeta. step.
  destruct (Dev.forceSetup args).
  { do 2 step. rewrite !after_after. reflexivity. }
  destruct (Dev.forceCms args).
  { do 2 step. rewrite !after_after. reflexivity. }
  step. unfold bind at 1, validateSetupConfiguration.
  destruct (w_validate w) as [e|v]; [reflexivity|].
  cbn [result world trace].
  destruct (complete v); cbn [negb].
  - step. erewrite bind_Ret by apply warnings_block.
    rewrite !after_after. reflexivity.
  - do 2 step. rewrite !after_after. reflexivity.
Qed.

Lemma Build_main_try_eq (args : list string) (w : World) :
  Build.main_try args w =
  if Build.buildAll args then
    let r1 := Build.runBuild "setup-wizard" w in
    match result r1 with
    | Ret _ =>
        let r2 := Build.runBuild "cms" (world r1) in
        after ([Console Log MBuildBanner; Console Log MBuildingAll] ++ trace r1)
              match result r2 with
              | Ret _ => {| result := Ret tt; world := world r2;
                            trace := trace r2 ++ [Console Log MAllBuilt] |}
              | _ => r2
              end
    | _ => after [Console Log MBuildBanner; Console Log MBuildingAll] r1
    end
  else after [Console Log MBuildBanner] (Build.runBuild "cms" w).
Proof.
  unfold Build.main_try. cbv zeta. step.
  destruct (Build.buildAll args); [|reflexivity].
  step. unfold bind at 1.
  destruct (Build.runBuild "setup-wizard" w) as [r1 w1 t1]. cbn [result world trace].
  destruct r1 as [[]| | | |]; cbn [result world trace]; try reflexivity.
  unfold bind at 1.
  destruct (Build.runBuild "cms" w1) as [r2 w2 t2]. cbn [result world trace].
  destruct r2 as [[]| | | |]; cbn; rewrite ?app_nil_r; reflexivity.
Qed.

End MainTry.

(** ** What a whole script run shows *)

Section ScriptObservations.

Ltac through_catch :=
  rewrite trace_try_catch_exit; observe;
  match goal with
  | |- context [match ?r with Throw _ => _ | _ => _ end] => destruct r
  end; cbn; rewrite ?app_nil_r, ?Nat.add_0_r; reflexivity.

Lemma Dev_script_spawned (args : list string) (w : World) :
  spawned (trace (Dev.script args w)) = spawned (trace (Dev.main_try args w)).
Proof. rewrite Dev_script_eq. unfold Dev.main. through_catch. Qed.

Lemma Dev_script_validator_calls (args : list string) (w : World) :
  validator_calls (trace (Dev.script args w))
  = validator_calls (trace (Dev.main_try args w)).
Proof. rewrite Dev_script_eq. unfold Dev.main. through_catch. Qed.

Lemma Dev_script_tmp_dirs (args : list string) (w : World) :
  tmp_dirs (trace (Dev.script args w)) = tmp_dirs (trace (Dev.main_try args w)).
Proof. rewrite Dev_script_eq. unfold Dev.main. through_catch. Qed.

Lemma Build_script_spawned (args : list string) (w : World) :
  spawned (trace (Build.script args w)) = spawned (trace (Build.main_try args w)).
Proof. rewrite Build_script_eq. unfold Build.main. through_catch. Qed.

Lemma Build_script_tmp_dirs (args : list string) (w : World) :
  tmp_dirs (trace (Build.script args w)) = tmp_dirs (trace (Build.main_try args w)).
Proof. rewrite Build_script_eq. unfold Build.main. through_catch. Qed.

Lemma Build_script_lifecycle (args : list string) (w : World) :
  lifecycle (trace (Build.script args w)) = lifecycle (trace (Build.main_try args w)).
Proof. rewrite Build_script_eq. unfold Build.main. through_catch. Qed.

Lemma Build_script_result (args : list string) (w : World) :
  result (Build.script args w) =
  match result (Build.main_try args w) with
  | Throw _ => Exit 1
  | r => r
  end.
Proof.
  rewrite Build_script_eq. unfold Build.main. apply result_try_catch_exit.
Qed.

(** Printing the warnings starts nothing, validates nothing, creates
    nothing. *)
Lemma warning_lines_quiet (v : SetupValidation) :
  spawned (warning_lines v) = [] /\ validator_calls (warning_lines v) = 0 /\
  tmp_dirs (warning_lines v) = [].
Proof.
  unfold warning_lines. destruct (Dev.has_warnings v); [|repeat split].
  cbn. rewrite spawned_app, validator_calls_app, tmp_dirs_app. cbn.
  induction (default [] (warnings v)) as [|x xs IH]; [repeat split | exact IH].
Qed.

(** The children the dev script starts, and its calls of the validator:
    the whole of the decision in [main]. *)
Lemma Dev_script_decision (args : list string) (w : World) :
  let t := trace (Dev.script args w) in
  if Dev.forceSetup args then
    validator_calls t = 0 /\ spawned t = [dev_argv args SetupWizard]
  else if Dev.forceCms args then
    validator_calls t = 0 /\ spawned t = [dev_argv args Cms]
  else
    validator_calls t = 1 /\
    match w_validate w with
    | inr v => spawned t = [dev_argv args (if complete v then Cms else SetupWizard)]
    | inl _ => spawned t = []
    end.
Proof.
  cbv zeta. rewrite Dev_script_spawned, Dev_script_validator_calls, Dev_main_try_eq.
  pose proof (launchApp_run SetupWizard (Dev.isProduction args) w) as [Ss Sv _ _ _].
  pose proof (launchApp_run Cms (Dev.isProduction args) w) as [Cs Cv _ _ _].
  unfold dev_argv.
  destruct (Dev.forceSetup args).
  { observe. rewrite Ss, Sv. split; reflexivity. }
  destruct (Dev.forceCms args).
  { observe. rewrite Cs, Cv. split; reflexivity. }
  destruct (w_validate w) as [e|v]; [split; reflexivity|].
  destruct (warning_lines_quiet v) as (Ws & Wv & _).
  destruct (complete v); cbn [negb]; observe;
    rewrite ?Ss, ?Sv, ?Cs, ?Cv, ?Ws, ?Wv; split; reflexivity.
Qed.

End ScriptObservations.

(** ** The dev script's decision *)

Section DevDecision.

Lemma includes_In (xs : list string) (x : string) :
  Js.includes xs x = true <-> In x xs.
Proof.
  unfold Js.includes. rewrite existsb_exists. split.
  - intros (y & Hy & E). apply String.eqb_eq in E. now subst.
  - intros H. exists x. split; [exact H | apply String.eqb_refl].
Qed.

(** C1, as the spec states it, fails: with [--cms] listed before
    [--setup], the dev script launches setup-wizard, not cms. *)
Lemma C1_cms_listed_first_still_launches_setup_wizard :
  listed_before "--cms" "--setup" ["--cms"; "--setup"] = true /\
  spawned (trace (Dev.script ["--cms"; "--setup"] Posix.no_bunx))
  = [["x"; "nx"; "dev"; "setup-wizard"]] /\
  spawned (trace (Dev.script ["--cms"; "--setup"] Posix.no_bunx))
  <> [dev_argv ["--cms"; "--setup"] Cms].
Proof.
  split; [reflexivity|]. split; [vm_compute; reflexivity|].
  vm_compute. discriminate.
Qed.

(** C1, amended: whenever the argument list contains both [--setup] and
    [--cms], in either order, the dev script launches setup-wizard and
    never invokes the validator. *)
Theorem C1_setup_flag_wins_in_either_order (args : list string) (w : World) :
  In "--setup" args -> In "--cms" args ->
  spawned (trace (Dev.script args w)) = [dev_argv args SetupWizard] /\
  validator_calls (trace (Dev.script args w)) = 0.
Proof.
  intros Hs _. pose proof (Dev_script_decision args w) as H. cbv zeta in H.
  apply includes_In in Hs. fold (Dev.forceSetup args) in Hs.
  rewrite Hs in H. tauto.
Qed.

(** The amended C1 at [--cms --setup] on a machine without [bunx]. *)
Lemma C1_setup_flag_wins_witness :
  spawned (trace (Dev.script ["--cms"; "--setup"] Posix.no_bunx))
  = [dev_argv ["--cms"; "--setup"] SetupWizard] /\
  validator_calls (trace (Dev.script ["--cms"; "--setup"] Posix.no_bunx)) = 0.
Proof.
  apply (C1_setup_flag_wins_in_either_order ["--cms"; "--setup"] Posix.no_bunx).
  - simpl. tauto.
  - simpl. tauto.
Defined.


(** C6: every child the dev script spawns is given the subcommand
    "build" when [--prod] or [--production] is among the arguments and
    "dev" when neither is, whichever target was chosen. *)
Theorem C6_production_flag_selects_subcommand
        (args : list string) (w : World) (argv : list string) :
  In argv (spawned (trace (Dev.script args w))) ->
  exists app : App,
    argv = ["x"; "nx";
            if Js.includes args "--prod" || Js.includes args "--production"
            then "build" else "dev";
            app_name app].
Proof.
  intros Hin. pose proof (Dev_script_decision args w) as H. cbv zeta in H.
  fold (Dev.isProduction args). change (exists app, argv = dev_argv args app).
  destruct (Dev.forceSetup args); [|destruct (Dev.forceCms args)].
  - destruct H as [_ H]. rewrite H in Hin. destruct Hin as [<-|[]]. eauto.
  - destruct H as [_ H]. rewrite H in Hin. destruct Hin as [<-|[]]. eauto.
  - destruct H as [_ H]. destruct (w_validate w) as [e|v]; rewrite H in Hin.
    + destruct Hin.
    + destruct Hin as [<-|[]]. eauto.
Qed.

(** C6 at [--cms --prod]: the child is given "build". *)
Lemma C6_production_flag_witness :
  exists app : App,
    ["x"; "nx"; "build"; "cms"]
    = ["x"; "nx";
       if Js.includes ["--cms"; "--prod"] "--prod"
          || Js.includes ["--cms"; "--prod"] "--production"
       then "build" else "dev";
       app_name app].
Proof.
  apply (C6_production_flag_selects_subcommand ["--cms"; "--prod"] Posix.no_bunx).
  vm_compute. left. reflexivity.
Defined.

End DevDecision.

(** ** The launcher's promise *)

Section LauncherPromise.

Lemma strict_ne_zero_false (code : option Z) :
  Js.strict_ne_zero code = false <-> code = Some 0%Z.
Proof.
  destruct code as [n|]; cbn; [|split; discriminate].
  rewrite negb_false_iff, Z.eqb_eq. split; congruence.
Qed.

Lemma strict_ne_zero_true (code : option Z) :
  Js.strict_ne_zero code = true <-> code <> Some 0%Z.
Proof.
  rewrite <- strict_ne_zero_false. destruct (Js.strict_ne_zero code); split;
    congruence.
Qed.

(** C5: the awaited launcher ([launchApp], [runBuild]) completes normally
    exactly when the first event of its child is an exit with code 0; it
    throws an error whose message carries the code, in decimal, when the
    child exits with a code other than 0; it throws the spawn error
    itself when the child emits 'error'. *)
Theorem C5_launcher_settles_by_child_outcome
        (app : App) (production : bool) (target : string) (w : World) :
  (result (Dev.launchApp app production w) = Ret tt
   <-> head (cr_events (w_children w 0)) = Some (ChildExit (Some 0%Z))) /\
  (result (Build.runBuild target w) = Ret tt
   <-> head (cr_events (w_children w 0)) = Some (ChildExit (Some 0%Z))) /\
  (forall c : Z, c <> 0%Z ->
     head (cr_events (w_children w 0)) = Some (ChildExit (Some c)) ->
     result (Dev.launchApp app production w)
     = Throw (JsError (match app with
                       | SetupWizard => "setup-wizard"
                       | Cms => "cms"
                       end +:+ " exited with code " +:+ pretty c)) /\
     result (Build.runBuild target w)
     = Throw (JsError (target +:+ " build exited with code " +:+ pretty c))) /\
  (forall e : Err,
     head (cr_events (w_children w 0)) = Some (ChildError e) ->
     result (Dev.launchApp app production w) = Throw e /\
     result (Build.runBuild target w) = Throw e).
Proof.
  rewrite launchApp_result, runBuild_result.
  destruct (cr_events (w_children w 0)) as [|[e|code|] evs]; cbn [head];
    [| |destruct (Js.strict_ne_zero code) eqn:E;
        [apply strict_ne_zero_true in E
        |apply strict_ne_zero_false in E; subst code]|];
    repeat (split || intro); try discriminate; try congruence.
  all: match goal with H : Some _ = Some _ |- _ => injection H as -> end.
  all: exact eq_refl.
Qed.

(** C5 where the child exits with 0, with 1 and with 130: both launchers
    return, resp. throw the error with the code in its message. *)
Lemma C5_launcher_witness :
  result (Dev.launchApp Cms false Posix.no_bunx) = Ret tt /\
  result (Build.runBuild "cms" Posix.no_bunx) = Ret tt /\
  result (Dev.launchApp SetupWizard false (Posix.child_exits 1))
  = Throw (JsError "setup-wizard exited with code 1") /\
  result (Build.runBuild "cms" (Posix.child_exits 1))
  = Throw (JsError "cms build exited with code 1") /\
  result (Dev.launchApp Cms true (Posix.child_exits 130))
  = Throw (JsError "cms exited with code 130") /\
  result (Build.runBuild "setup-wizard" (Posix.child_exits 130))
  = Throw (JsError "setup-wizard build exited with code 130").
Proof.
  destruct (C5_launcher_settles_by_child_outcome Cms false "cms" Posix.no_bunx)
    as ([_ Hdev] & [_ Hbuild] & _).
  destruct (C5_launcher_settles_by_child_outcome SetupWizard false "cms"
              (Posix.child_exits 1)) as (_ & _ & H1 & _).
  destruct (C5_launcher_settles_by_child_outcome Cms true "setup-wizard"
              (Posix.child_exits 130)) as (_ & _ & H130 & _).
  destruct (H1 1%Z) as [D1 B1]; [discriminate | reflexivity |].
  destruct (H130 130%Z) as [D130 B130]; [discriminate | reflexivity |].
  split; [apply Hdev; reflexivity|]. split; [apply Hbuild; reflexivity|].
  rewrite D1, B1, D130, B130. vm_compute. repeat split.
Defined.

(** C10: an exit event whose code is not exactly 0, a null code
    included, rejects the launcher's pending promise with an error whose
    message embeds the code as the template prints it, a number in
    decimal and null as "null"; only the code 0 resolves it. The awaited
    launcher then throws that error. *)
Theorem C10_only_exit_code_zero_resolves
        (app : App) (production : bool) (target : string)
        (code : option Z) (w : World) :
  (code <> Some 0%Z ->
   result (Dev.launchApp_on app (ChildExit code) Pending w)
   = Ret (Rejected (JsError (match app with
                             | SetupWizard => "setup-wizard"
                             | Cms => "cms"
                             end +:+ " exited with code " +:+
                             match code with
                             | Some n => pretty n
                             | None => "null"
                             end))) /\
   result (Build.runBuild_on target (ChildExit code) Pending w)
   = Ret (Rejected (JsError (target +:+ " build exited with code " +:+
                             match code with
                             | Some n => pretty n
                             | None => "null"
                             end))) /\
   (head (cr_events (w_children w 0)) = Some (ChildExit code) ->
    result (Dev.launchApp app production w)
    = Throw (JsError (match app with
                      | SetupWizard => "setup-wizard"
                      | Cms => "cms"
                      end +:+ " exited with code " +:+
                      match code with
                      | Some n => pretty n
                      | None => "null"
                      end)) /\
    result (Build.runBuild target w)
    = Throw (JsError (target +:+ " build exited with code " +:+
                      match code with
                      | Some n => pretty n
                      | None => "null"
                      end)))) /\
  (result (Dev.launchApp_on app (ChildExit code) Pending w) = Ret Resolved
   -> code = Some 0%Z) /\
  (result (Build.runBuild_on target (ChildExit code) Pending w) = Ret Resolved
   -> code = Some 0%Z).
Proof.
  change (match app with SetupWizard => "setup-wizard" | Cms => "cms" end)
    with (app_name app).
  change (match code with Some n => pretty n | None => "null" end)
    with (Js.template_code code).
  rewrite launchApp_result, runBuild_result.
  unfold Dev.launchApp_on, Build.runBuild_on.
  destruct (Js.strict_ne_zero code) eqn:E.
  - split; [|split; intros; discriminate].
    intros _. split; [reflexivity|]. split; [reflexivity|].
    intros Hh. destruct (cr_events (w_children w 0)) as [|ev evs]; [discriminate|].
    cbn [head] in Hh. injection Hh as ->. rewrite E. split; reflexivity.
  - apply strict_ne_zero_false in E.
    split; [intros H; contradiction | split; intros _; exact E].
Qed.

(** C10 at a null exit code and at the codes 1, 137 and -1: the
    listeners reject with the code in the message. *)
Lemma C10_null_exit_code_witness :
  result (Dev.launchApp_on Cms (ChildExit None) Pending Posix.no_bunx)
  = Ret (Rejected (JsError "cms exited with code null")) /\
  result (Build.runBuild_on "cms" (ChildExit None) Pending Posix.no_bunx)
  = Ret (Rejected (JsError "cms build exited with code null")) /\
  result (Dev.launchApp_on SetupWizard (ChildExit (Some 1%Z)) Pending Posix.no_bunx)
  = Ret (Rejected (JsError "setup-wizard exited with code 1")) /\
  result (Build.runBuild_on "setup-wizard" (ChildExit (Some 137%Z)) Pending
            Posix.no_bunx)
  = Ret (Rejected (JsError "setup-wizard build exited with code 137")) /\
  result (Dev.launchApp_on Cms (ChildExit (Some (-1)%Z)) Pending Posix.no_bunx)
  = Ret (Rejected (JsError "cms exited with code -1")).
Proof.
  pose proof (C10_only_exit_code_zero_resolves Cms false "cms" None Posix.no_bunx)
    as [Hnull _].
  pose proof (C10_only_exit_code_zero_resolves SetupWizard false "setup-wizard"
                (Some 1%Z) Posix.no_bunx) as [H1 _].
  pose proof (C10_only_exit_code_zero_resolves SetupWizard false "setup-wizard"
                (Some 137%Z) Posix.no_bunx) as [H137 _].
  pose proof (C10_only_exit_code_zero_resolves Cms false "cms"
                (Some (-1)%Z) Posix.no_bunx) as [Hneg _].
  destruct Hnull as (N1 & N2 & _); [discriminate|].
  destruct H1 as (A1 & _ & _); [discriminate|].
  destruct H137 as (_ & B137 & _); [discriminate|].
  destruct Hneg as (Aneg & _ & _); [discriminate|].
  rewrite N1, N2, A1, B137, Aneg. vm_compute. repeat split.
Defined.

End LauncherPromise.

(** ** The build script with [--all] *)

Section BuildAll.

(** C4: with [--all], the build script starts the setup-wizard build
    first; it starts the cms build only after it has received the
    setup-wizard child's exit with code 0; when the setup-wizard build
    fails (an 'error' event, or an exit with another code) no cms build
    is started and the process exits with status 1. *)
Theorem C4_build_all_is_sequential (args : list string) (w : World) :
  In "--all" args ->
  match cr_events (w_children w 0) with
  | ChildExit (Some 0%Z) :: _ =>
      lifecycle (trace (Build.script args w))
      = Started (build_argv "setup-wizard")
        :: Received (ChildExit (Some 0%Z))
        :: Started (build_argv "cms")
        :: match cr_events (w_children w 1) with
           | [] => []
           | ev :: _ => [Received ev]
           end
  | ChildExit code :: _ =>
      lifecycle (trace (Build.script args w))
      = [Started (build_argv "setup-wizard"); Received (ChildExit code)] /\
      result (Build.script args w) = Exit 1
  | ChildError e :: _ =>
      lifecycle (trace (Build.script args w))
      = [Started (build_argv "setup-wizard"); Received (ChildError e)] /\
      result (Build.script args w) = Exit 1
  | Sigint :: _ =>
      lifecycle (trace (Build.script args w))
      = [Started (build_argv "setup-wizard"); Received Sigint] /\
      result (Build.script args w) = Killed
  | [] =>
      lifecycle (trace (Build.script args w))
      = [Started (build_argv "setup-wizard")] /\
      result (Build.script args w) = Hang
  end.
Proof.
  intros H. apply includes_In in H. fold (Build.buildAll args) in H.
  rewrite Build_script_lifecycle, Build_script_result, Build_main_try_eq, H.
  cbv zeta. unfold build_argv.
  pose proof (runBuild_run "setup-wizard" w) as [_ _ L1 _ C1].
  pose proof (runBuild_result "setup-wizard" w) as R1.
  pose proof (runBuild_run "cms" (world (Build.runBuild "setup-wizard" w)))
    as [_ _ L2 _ _].
  rewrite C1 in L2.
  destruct (cr_events (w_children w 0)) as [|[e|[[|p|p]|]|] evs];
    rewrite R1; cbn [Js.strict_ne_zero Z.eqb negb];
    rewrite ?result_after, ?R1; cbn [Js.strict_ne_zero Z.eqb negb];
    observe; rewrite ?L1; try (split; reflexivity).
  destruct (result (Build.runBuild "cms" (world (Build.runBuild "setup-wizard" w))))
    as [[]| | | |]; cbn [trace]; observe; rewrite L2; cbn;
    rewrite ?app_nil_r; reflexivity.
Qed.

(** C4 where the setup-wizard build exits with 1. *)
Lemma C4_build_all_witness :
  lifecycle (trace (Build.script ["--all"] Posix.first_child_fails))
  = [Started (build_argv "setup-wizard"); Received (ChildExit (Some 1%Z))] /\
  result (Build.script ["--all"] Posix.first_child_fails) = Exit 1.
Proof.
  apply (C4_build_all_is_sequential ["--all"] Posix.first_child_fails).
  simpl. tauto.
Defined.

End BuildAll.

(** ** The environment the resolver returns *)

Section ResolverEnv.

(** [base_env] changes the three overridden variables and no other. *)
Lemma base_env_frame (penv : Env) (k : string) :
  ~ overridden k -> base_env penv !! k = penv !! k.
Proof.
  unfold overridden, base_env. intros H.
  rewrite !lookup_insert_ne by (intros <-; tauto). reflexivity.
Qed.

Lemma base_env_overrides (penv : Env) :
  base_env penv !! "NODE_OPTIONS"
  = Some (Js.trimStart (Js.or_empty (penv !! "NODE_OPTIONS") +:+ " ")
          +:+ NO_DEPRECATION) /\
  base_env penv !! "NX_TERMINAL_OUTPUT_FORMAT" = Some "text" /\
  base_env penv !! "NX_NATIVE_LOGGING" = Some "false".
Proof.
  unfold base_env. repeat split.
  - rewrite !lookup_insert_ne by discriminate.
    rewrite lookup_insert_eq. f_equal. apply trim_append_flag.
  - rewrite lookup_insert_ne by discriminate. apply lookup_insert_eq.
  - apply lookup_insert_eq.
Qed.

Lemma found_bunx_true (w : World) :
  found_bunx w = true <->
  exists dir,
    In dir (Js.split (w_delimiter w) (Js.or_empty (w_env w !! "PATH"))) /\
    w_join w dir "bunx" ∈ w_fs w.
Proof.
  unfold found_bunx. rewrite existsb_exists.
  split; intros (dir & Hin & H); exists dir; split; try exact Hin.
  - now apply bool_decide_eq_true in H.
  - now apply bool_decide_eq_true.
Qed.

(** C7: the resolver always returns an environment, it never throws.
    When the alias is not found and the creation of the temporary
    directory or of the symlink throws [e], it warns about [e] and returns
    the inherited environment with the three overrides only:
    [NODE_OPTIONS] ending in the appended [--no-deprecation],
    [NX_TERMINAL_OUTPUT_FORMAT] set to "text", [NX_NATIVE_LOGGING] set to
    "false", and [PATH] and every variable that is not overridden as
    inherited. *)
Theorem C7_resolver_degrades_without_throwing (w : World) :
  (exists env', result (getEnvWithBunx w) = Ret env') /\
  (forall e : Err,
     found_bunx w = false ->
     (w_mkdtemp w 0 = inl e \/
      exists suffix, w_mkdtemp w 0 = inr suffix /\ w_symlink w 0 = Some e) ->
     exists env',
       result (getEnvWithBunx w) = Ret env' /\
       env' = base_env (w_env w) /\
       In (Console Warn (MShimFailed e)) (trace (getEnvWithBunx w)) /\
       env' !! "NODE_OPTIONS"
       = Some (Js.trimStart (Js.or_empty (w_env w !! "NODE_OPTIONS") +:+ " ")
               +:+ "--no-deprecation") /\
       env' !! "NX_TERMINAL_OUTPUT_FORMAT" = Some "text" /\
       env' !! "NX_NATIVE_LOGGING" = Some "false" /\
       env' !! "PATH" = w_env w !! "PATH" /\
       (forall k,
          k <> "NODE_OPTIONS" -> k <> "NX_TERMINAL_OUTPUT_FORMAT" ->
          k <> "NX_NATIVE_LOGGING" ->
          env' !! k = w_env w !! k)).
Proof.
  split; [apply getEnvWithBunx_run|].
  intros e Hf Hfail.
  assert (result (getEnvWithBunx w) = Ret (base_env (w_env w)) /\
          In (Console Warn (MShimFailed e)) (trace (getEnvWithBunx w))) as [Hr Hw].
  { destruct Hfail as [Hm | (suffix & Hm & Hs)].
    - rewrite (getEnvWithBunx_mkdtemp_throws w e Hf Hm). cbn. tauto.
    - rewrite (getEnvWithBunx_symlink_throws w suffix e Hf Hm Hs). cbn. tauto. }
  pose proof (base_env_overrides (w_env w)) as (Hn & Ht & Hl).
  exists (base_env (w_env w)).
  split; [exact Hr|]. split; [reflexivity|]. split; [exact Hw|].
  split; [exact Hn|]. split; [exact Ht|]. split; [exact Hl|].
  split; [apply base_env_PATH|].
  intros k H1 H2 H3. apply base_env_frame. unfold overridden. tauto.
Qed.

(** C7 where [mkdtempSync] throws EACCES: the warning, and the returned
    environment key by key. *)
Lemma C7_resolver_degrades_witness :
  exists env',
    result (getEnvWithBunx Posix.no_tmp) = Ret env' /\
    In (Console Warn (MShimFailed (SysError "EACCES")))
       (trace (getEnvWithBunx Posix.no_tmp)) /\
    env' !! "NODE_OPTIONS" = Some "--no-deprecation" /\
    env' !! "NX_TERMINAL_OUTPUT_FORMAT" = Some "text" /\
    env' !! "NX_NATIVE_LOGGING" = Some "false" /\
    env' !! "PATH" = Some "/usr/local/bin:/usr/bin".
Proof.
  destruct (C7_resolver_degrades_without_throwing Posix.no_tmp) as [_ H].
  destruct (H (SysError "EACCES"))
    as (env' & Hr & _ & Hw & Hn & Ht & Hl & Hp & _).
  - vm_compute. reflexivity.
  - left. reflexivity.
  - exists env'. split; [exact Hr|]. split; [exact Hw|].
    split; [exact Hn|]. split; [exact Ht|]. split; [exact Hl|].
    rewrite Hp. vm_compute. reflexivity.
Defined.

(** C8: when some directory of the inherited [PATH] has an entry named
    [bunx], the resolver creates no temporary directory, has no effect at
    all (its trace is empty and the world is as before), and returns the
    inherited environment with the three overrides only: [PATH], and every
    variable that is not overridden, is as inherited. *)
Theorem C8_alias_found_means_no_side_effect (w : World) :
  (exists dir,
     In dir (Js.split (w_delimiter w) (Js.or_empty (w_env w !! "PATH"))) /\
     w_join w dir "bunx" ∈ w_fs w) ->
  result (getEnvWithBunx w) = Ret (base_env (w_env w)) /\
  trace (getEnvWithBunx w) = [] /\
  world (getEnvWithBunx w) = w /\
  base_env (w_env w) !! "PATH" = w_env w !! "PATH" /\
  (forall k, ~ overridden k -> base_env (w_env w) !! k = w_env w !! k).
Proof.
  intros H. apply found_bunx_true in H.
  rewrite (getEnvWithBunx_found w H).
  repeat split; [apply base_env_PATH|]. intros k. apply base_env_frame.
Qed.

(** C8 where [/usr/local/bin/bunx] exists. *)
Lemma C8_alias_found_witness :
  result (getEnvWithBunx Posix.with_bunx) = Ret (base_env (w_env Posix.with_bunx)) /\
  trace (getEnvWithBunx Posix.with_bunx) = [] /\
  world (getEnvWithBunx Posix.with_bunx) = Posix.with_bunx.
Proof.
  destruct (C8_alias_found_means_no_side_effect Posix.with_bunx)
    as (Hr & Ht & Hw & _).
  - exists "/usr/local/bin". split.
    + vm_compute. tauto.
    + apply (bool_decide_unpack _). vm_compute. exact I.
  - repeat split; assumption.
Defined.

(** C9: whatever the world, the environment the resolver returns has
    [NODE_OPTIONS] ending in the appended [--no-deprecation] (after what
    is left of the inherited value), [NX_TERMINAL_OUTPUT_FORMAT] set to
    "text" and [NX_NATIVE_LOGGING] set to "false". *)
Theorem C9_returned_env_has_the_overrides (w : World) :
  exists env',
    result (getEnvWithBunx w) = Ret env' /\
    env' !! "NODE_OPTIONS"
    = Some (Js.trimStart (Js.or_empty (w_env w !! "NODE_OPTIONS") +:+ " ")
            +:+ "--no-deprecation") /\
    env' !! "NX_TERMINAL_OUTPUT_FORMAT" = Some "text" /\
    env' !! "NX_NATIVE_LOGGING" = Some "false".
Proof.
  pose proof (base_env_overrides (w_env w)) as (Hn & Ht & Hl).
  destruct (found_bunx w) eqn:Hf.
  { rewrite getEnvWithBunx_found by exact Hf. eexists. cbn. eauto. }
  destruct (w_mkdtemp w 0) as [e|suffix] eqn:Hm.
  { rewrite (getEnvWithBunx_mkdtemp_throws w e Hf Hm). eexists. cbn. eauto. }
  destruct (w_symlink w 0) as [e|] eqn:Hs.
  - rewrite (getEnvWithBunx_symlink_throws w suffix e Hf Hm Hs).
    eexists. cbn. eauto.
  - rewrite (getEnvWithBunx_shim w suffix Hf Hm Hs).
    eexists. cbn [result]. split; [reflexivity|].
    unfold shim_env. rewrite !lookup_insert_ne by discriminate. eauto.
Qed.

End ResolverEnv.

(** ** Shim directories per run *)

Section ShimDirectories.

Lemma launchApp_tmp_dirs (app : App) (production : bool) (w : World) :
  length (tmp_dirs (trace (Dev.launchApp app production w))) <= 1.
Proof.
  destruct (launchApp_run app production w) as [_ _ _ -> _].
  apply getEnvWithBunx_run.
Qed.

Lemma runBuild_tmp_dirs (target : string) (w : World) :
  length (tmp_dirs (trace (Build.runBuild target w))) <= 1 /\
  length (spawned (trace (Build.runBuild target w))) = 1.
Proof.
  destruct (runBuild_run target w) as [-> _ _ -> _].
  split; [apply getEnvWithBunx_run | reflexivity].
Qed.

Lemma Dev_script_tmp_dirs_le (args : list string) (w : World) :
  length (tmp_dirs (trace (Dev.script args w))) <= 1.
Proof.
  rewrite Dev_script_tmp_dirs, Dev_main_try_eq.
  pose proof (launchApp_tmp_dirs SetupWizard (Dev.isProduction args) w) as Hs.
  pose proof (launchApp_tmp_dirs Cms (Dev.isProduction args) w) as Hc.
  destruct (Dev.forceSetup args); [observe; exact Hs|].
  destruct (Dev.forceCms args); [observe; exact Hc|].
  destruct (w_validate w) as [e|v]; [cbn; lia|].
  destruct (warning_lines_quiet v) as (_ & _ & Wt).
  destruct (complete v); cbn [negb]; observe; rewrite ?Wt; assumption.
Qed.

Lemma Build_script_tmp_dirs_le (args : list string) (w : World) :
  length (tmp_dirs (trace (Build.script args w)))
  <= length (spawned (trace (Build.script args w))) /\
  length (spawned (trace (Build.script args w)))
  <= (if Build.buildAll args then 2 else 1).
Proof.
  rewrite Build_script_tmp_dirs, Build_script_spawned, Build_main_try_eq.
  destruct (Build.buildAll args).
  - cbv zeta.
    pose proof (runBuild_tmp_dirs "setup-wizard" w) as [T1 S1].
    pose proof (runBuild_tmp_dirs "cms" (world (Build.runBuild "setup-wizard" w)))
      as [T2 S2].
    destruct (result (Build.runBuild "setup-wizard" w)) as [[]| | | |];
      observe; rewrite ?length_app; cbn [tmp_dirs spawned length];
      try (rewrite S1; lia).
    destruct (result (Build.runBuild "cms" (world (Build.runBuild "setup-wizard" w))))
      as [[]| | | |]; cbn [trace]; observe; rewrite ?length_app;
      cbn [tmp_dirs spawned length]; rewrite S1, S2; lia.
  - pose proof (runBuild_tmp_dirs "cms" w) as [T S].
    observe. cbn [tmp_dirs spawned app]. rewrite S. lia.
Qed.

(** C2, as the spec states it, fails: on a machine without [bunx], one
    run of the build script with [--all] creates two temporary
    directories, one for each build; and where [mkdtempSync] throws, a
    run creates none although the alias is absent. *)
Lemma C2_build_all_creates_two_shim_directories :
  found_bunx Posix.no_bunx = false /\
  tmp_dirs (trace (Build.script ["--all"] Posix.no_bunx))
  = ["/tmp/sveltycms-bunx-aaaaaa"; "/tmp/sveltycms-bunx-bbbbbb"] /\
  ~ length (tmp_dirs (trace (Build.script ["--all"] Posix.no_bunx))) <= 1 /\
  found_bunx Posix.no_tmp = false /\
  tmp_dirs (trace (Build.script [] Posix.no_tmp)) = [].
Proof.
  split; [vm_compute; reflexivity|]. split; [vm_compute; reflexivity|].
  split; [|split; vm_compute; reflexivity].
  assert (length (tmp_dirs (trace (Build.script ["--all"] Posix.no_bunx))) = 2)
    as -> by (vm_compute; reflexivity).
  lia.
Qed.

End ShimDirectories.

(** ** The scenarios of the spec, run *)

Section Scenarios.

(** A verdict with [complete: false]: the validator is asked once and
    setup-wizard is launched in dev mode. *)
Example scenario_incomplete_configuration :
  let w := Posix.with_verdict
             {| complete := false; reason := Some "Missing database URL";
                missingFields := Some ["DB_URL"]; warnings := Some [] |} in
  validator_calls (trace (Dev.script [] w)) = 1 /\
  lifecycle (trace (Dev.script [] w))
  = [Started ["x"; "nx"; "dev"; "setup-wizard"]; Received (ChildExit (Some 0%Z))] /\
  result (Dev.script [] w) = Ret tt.
Proof. vm_compute. repeat split. Qed.

(** A complete configuration with one warning, and [--prod]: cms is
    built. *)
Example scenario_complete_configuration :
  let w := Posix.with_verdict
             {| complete := true; reason := None; missingFields := None;
                warnings := Some ["Using default admin password"] |} in
  In (Console Log (MWarningLine "Using default admin password"))
     (trace (Dev.script ["--prod"] w)) /\
  spawned (trace (Dev.script ["--prod"] w)) = [["x"; "nx"; "build"; "cms"]].
Proof. vm_compute. split; [tauto | reflexivity]. Qed.

(** The build script, no flag, child exiting with 1: one build, the
    process exits with 1. *)
Example scenario_build_fails :
  spawned (trace (Build.script [] Posix.first_child_fails))
  = [["x"; "nx"; "build"; "cms"]] /\
  result (Build.script [] Posix.first_child_fails) = Exit 1.
Proof. vm_compute. split; reflexivity. Qed.

(** SIGINT while the dev child runs: the child is sent SIGINT and the
    parent exits with 0. *)
Example scenario_sigint :
  let w := set_children
             (fun _ => {| cr_events := [Sigint]; cr_writes := fun fs => fs |})
             Posix.with_bunx in
  trace (Dev.launchApp Cms false w)
  = [Console Log (MLaunching "cms"); Console Log (MCommand ["dev"; "cms"]);
     Spawn "bun" ["x"; "nx"; "dev"; "cms"]
       {| stdio := "inherit"; shell := false; env := base_env (w_env w) |};
     OnSigint; Recv Sigint; Console Log MShutdown; Kill "SIGINT"] /\
  result (Dev.script [] w) = Exit 0.
Proof.
  cbv zeta. split.
  - rewrite launchApp_eq. cbv zeta.
    rewrite getEnvWithBunx_found by (vm_compute; reflexivity).
    reflexivity.
  - vm_compute. reflexivity.
Qed.

End Scenarios.

(** ** Console output and exit status of the scripts *)

Section Console.

Lemma logged_app (t1 t2 : list Effect) : logged (t1 ++ t2) = logged t1 ++ logged t2.
Proof. apply omap_app. Qed.

Lemma warned_app (t1 t2 : list Effect) : warned (t1 ++ t2) = warned t1 ++ warned t2.
Proof. apply omap_app. Qed.

Lemma errored_app (t1 t2 : list Effect) : errored (t1 ++ t2) = errored t1 ++ errored t2.
Proof. apply omap_app. Qed.

Lemma spawn_calls_app (t1 t2 : list Effect) :
  spawn_calls (t1 ++ t2) = spawn_calls t1 ++ spawn_calls t2.
Proof. apply omap_app. Qed.

Lemma exit_hooks_app (t1 t2 : list Effect) :
  exit_hooks (t1 ++ t2) = exit_hooks t1 ++ exit_hooks t2.
Proof. apply omap_app. Qed.

Lemma kills_app (t1 t2 : list Effect) : kills (t1 ++ t2) = kills t1 ++ kills t2.
Proof. apply omap_app. Qed.

End Console.

(** Push the console observations through the parts of a trace. *)
Ltac observe_console :=
  rewrite ?trace_after, ?logged_app, ?warned_app, ?errored_app,
    ?spawn_calls_app, ?exit_hooks_app, ?kills_app.

Section ResolverCases.

(** The four ways a call of the resolver can go. *)
Lemma getEnvWithBunx_cases (w : World) :
  getEnvWithBunx w = ret (base_env (w_env w)) w \/
  (exists e,
     found_bunx w = false /\ w_mkdtemp w 0 = inl e /\
     getEnvWithBunx w
     = {| result := Ret (base_env (w_env w));
          world := pop_mkdtemp w;
          trace := [MkdtempSync (shim_prefix w) (inl e);
                    Console Warn (MShimFailed e)] |}) \/
  (exists suffix e,
     found_bunx w = false /\ w_mkdtemp w 0 = inr suffix /\ w_symlink w 0 = Some e /\
     getEnvWithBunx w
     = {| result := Ret (base_env (w_env w));
          world := pop_symlink
                     (set_fs (fun fs => {[shim_prefix w +:+ suffix]} ∪ fs)
                             (pop_mkdtemp w));
          trace := [MkdtempSync (shim_prefix w) (inr (shim_prefix w +:+ suffix));
                    SymlinkSync (w_execPath w)
                      (w_join w (shim_prefix w +:+ suffix) "bunx") (Some e);
                    Console Warn (MShimFailed e)] |}) \/
  (exists suffix,
     found_bunx w = false /\ w_mkdtemp w 0 = inr suffix /\ w_symlink w 0 = None /\
     getEnvWithBunx w
     = {| result := Ret (shim_env w (shim_prefix w +:+ suffix));
          world := set_fs
                     (fun fs => {[w_join w (shim_prefix w +:+ suffix) "bunx"]} ∪ fs)
                     (pop_symlink
                        (set_fs (fun fs => {[shim_prefix w +:+ suffix]} ∪ fs)
                                (pop_mkdtemp w)));
          trace := [MkdtempSync (shim_prefix w) (inr (shim_prefix w +:+ suffix));
                    SymlinkSync (w_execPath w)
                      (w_join w (shim_prefix w +:+ suffix) "bunx") None;
                    OnExitRm (shim_prefix w +:+ suffix)] |}).
Proof.
  destruct (found_bunx w) eqn:Hf.
  { left. now apply getEnvWithBunx_found. }
  destruct (w_mkdtemp w 0) as [e|suffix] eqn:Hm.
  { right. left. exists e. repeat split; try assumption.
    now apply getEnvWithBunx_mkdtemp_throws. }
  destruct (w_symlink w 0) as [e|] eqn:Hs.
  - right. right. left. exists suffix, e. repeat split; try assumption.
    now apply getEnvWithBunx_symlink_throws.
  - right. right. right. exists suffix. repeat split; try assumption.
    now apply getEnvWithBunx_shim.
Qed.

(** The resolver prints nothing but its warning, spawns nothing, and
    leaves [process.env] and the platform as they are. *)
Lemma getEnvWithBunx_quiet (w : World) :
  logged (trace (getEnvWithBunx w)) = [] /\
  errored (trace (getEnvWithBunx w)) = [] /\
  spawn_calls (trace (getEnvWithBunx w)) = [] /\
  kills (trace (getEnvWithBunx w)) = [] /\
  w_env (world (getEnvWithBunx w)) = w_env w.
Proof.
  destruct (getEnvWithBunx_cases w)
    as [H | [(e & _ & _ & H) | [(s & e & _ & _ & _ & H) | (s & _ & _ & _ & H)]]];
    rewrite H; repeat split.
Qed.

End ResolverCases.

Section LaunchConsole.

Lemma warning_prints_app (t1 t2 : list Effect) :
  warning_prints (t1 ++ t2) = warning_prints t1 ++ warning_prints t2.
Proof. apply omap_app. Qed.

Lemma first_event_cases (w : World) (n : nat) :
  first_event w n = match cr_events (w_children w n) with
                    | [] => None
                    | ev :: _ => Some ev
                    end.
Proof. unfold first_event. destruct (cr_events (w_children w n)); reflexivity. Qed.

(** Everything [launchApp] prints, sends and spawns. *)
Lemma launchApp_console (app : App) (production : bool) (w : World) :
  let command := if production then "build" else "dev" in
  logged (trace (Dev.launchApp app production w))
  = [MLaunching (app_name app); MCommand [command; app_name app]]
    ++ match first_event w 0 with
       | Some Sigint => [MShutdown]
       | _ => []
       end /\
  errored (trace (Dev.launchApp app production w))
  = match first_event w 0 with
    | Some (ChildError e) => [MFailedToStart (app_name app) e]
    | _ => []
    end /\
  kills (trace (Dev.launchApp app production w))
  = match first_event w 0 with
    | Some Sigint => ["SIGINT"]
    | _ => []
    end /\
  warned (trace (Dev.launchApp app production w))
  = warned (trace (getEnvWithBunx w)) /\
  exit_hooks (trace (Dev.launchApp app production w))
  = exit_hooks (trace (getEnvWithBunx w)) /\
  exists env',
    result (getEnvWithBunx w) = Ret env' /\
    spawn_calls (trace (Dev.launchApp app production w))
    = [("bun", ["x"; "nx"; command; app_name app],
        {| stdio := "inherit"; shell := false; env := env' |})].
Proof.
  cbv zeta. rewrite launchApp_eq, first_event_cases. cbv zeta.
  destruct (getEnvWithBunx_run w) as [[env' Hr] _ _ _ _ _ _].
  destruct (getEnvWithBunx_quiet w) as (Hl & He & Hs & Hk & _).
  rewrite Hr, await_launchApp.
  destruct (cr_events (w_children w 0)) as [|[e|code|] evs];
    observe_console; rewrite ?Hl, ?He, ?Hs, ?Hk; cbn;
    rewrite ?app_nil_r; repeat split; eauto.
Qed.

(** Everything [runBuild] prints and spawns. *)
Lemma runBuild_console (target : string) (w : World) :
  logged (trace (Build.runBuild target w))
  = MBuilding target
    :: match first_event w 0 with
       | Some (ChildExit (Some 0%Z)) => [MBuilt target]
       | _ => []
       end /\
  errored (trace (Build.runBuild target w))
  = match first_event w 0 with
    | Some (ChildError e) => [MFailedToBuild target e]
    | _ => []
    end /\
  warned (trace (Build.runBuild target w))
  = warned (trace (getEnvWithBunx w)) /\
  exit_hooks (trace (Build.runBuild target w))
  = exit_hooks (trace (getEnvWithBunx w)) /\
  exists env',
    result (getEnvWithBunx w) = Ret env' /\
    spawn_calls (trace (Build.runBuild target w))
    = [("bun", ["x"; "nx"; "build"; target],
        {| stdio := "inherit"; shell := false;
           env := <["FORCE_COLOR" := "1"]> env' |})].
Proof.
  rewrite runBuild_eq, first_event_cases. cbv zeta.
  destruct (getEnvWithBunx_run w) as [[env' Hr] _ _ _ _ _ _].
  destruct (getEnvWithBunx_quiet w) as (Hl & He & Hs & Hk & _).
  rewrite Hr, await_runBuild.
  destruct (cr_events (w_children w 0)) as [|[e|[[|p|p]|]|] evs];
    cbn [Js.strict_ne_zero Z.eqb negb];
    observe_console; rewrite ?Hl, ?He, ?Hs, ?Hk; cbn;
    rewrite ?app_nil_r; repeat split; eauto.
Qed.

(** The world after an awaited launch: the next child is next, the
    inherited environment and the validator are as before. *)
Lemma launch_world (w : World) :
  (forall app production n,
     w_children (world (Dev.launchApp app production w)) n = w_children w (S n)) /\
  (forall target n,
     w_children (world (Build.runBuild target w)) n = w_children w (S n)) /\
  (forall target, w_env (world (Build.runBuild target w)) = w_env w).
Proof.
  split; [intros; apply launchApp_run|].
  split; [intros; apply runBuild_run|].
  intros target. rewrite runBuild_eq. cbv zeta.
  destruct (getEnvWithBunx_run w) as [[env' Hr] _ _ _ _ _ _].
  destruct (getEnvWithBunx_quiet w) as (_ & _ & _ & _ & He).
  rewrite Hr, world_after, await_runBuild.
  destruct (cr_events (w_children w 0)) as [|[e|code|] evs];
    try destruct (Js.strict_ne_zero code); cbn; exact He.
Qed.

End LaunchConsole.

(** ** The dev script, beyond its decision *)

Section DevScript.

Lemma warning_prints_map (ws : list string) :
  warning_prints (map (fun x => Console Log (MWarningLine x)) ws) = ws.
Proof. induction ws as [|x ws IH]; [reflexivity|]. cbn. f_equal. exact IH. Qed.

Lemma warning_prints_warning_lines (v : SetupValidation) :
  warning_prints (warning_lines v) = default [] (warnings v).
Proof.
  unfold warning_lines, Dev.has_warnings.
  destruct (warnings v) as [[|x xs]|]; try reflexivity.
  cbn [default].
  change (warning_prints
            (map (fun x => Console Log (MWarningLine x)) (x :: xs)
             ++ [Console Log MBlank]) = x :: xs).
  rewrite warning_prints_app, warning_prints_map. apply app_nil_r.
Qed.

Lemma warning_lines_console (v : SetupValidation) :
  errored (warning_lines v) = [] /\ warned (warning_lines v) = [] /\
  kills (warning_lines v) = [] /\ spawn_calls (warning_lines v) = [] /\
  exit_hooks (warning_lines v) = [].
Proof.
  unfold warning_lines. destruct (Dev.has_warnings v); [|repeat split].
  cbn. observe_console. cbn. rewrite !app_nil_r.
  induction (default [] (warnings v)) as [|x xs IH]; [repeat split | exact IH].
Qed.

(** Once the target is decided, the [try] block is: some lines printed,
    the validator asked or not, then the launch. *)
Lemma Dev_main_try_launch (args : list string) (w : World) (app : App) :
  dev_target args w = Some app ->
  exists pre,
    Dev.main_try args w = after pre (Dev.launchApp app (Dev.isProduction args) w) /\
    errored pre = [] /\ warned pre = [] /\ kills pre = [] /\
    spawn_calls pre = [] /\ exit_hooks pre = [] /\
    warning_prints pre
    = if Dev.forceSetup args || Dev.forceCms args then []
      else match w_validate w with
           | inr v => if complete v then default [] (warnings v) else []
           | inl _ => []
           end.
Proof.
  unfold dev_target. rewrite Dev_main_try_eq.
  destruct (Dev.forceSetup args).
  { intros [= <-]. eexists. split; [reflexivity|]. repeat split. }
  destruct (Dev.forceCms args).
  { intros [= <-]. eexists. split; [reflexivity|]. repeat split. }
  destruct (w_validate w) as [e|v]; [discriminate|].
  intros [= <-].
  destruct (warning_lines_console v) as (He & Hw & Hk & Hs & Hh).
  destruct (complete v); cbn [negb orb].
  - eexists. split; [reflexivity|]. observe_console.
    rewrite He, Hw, Hk, Hs, Hh, warning_prints_app, warning_prints_warning_lines.
    repeat split.
  - eexists. split; [reflexivity|]. repeat split.
Qed.

End DevScript.

Section DevExtras.

Lemma Dev_script_run (args : list string) (w : World) :
  Dev.script args w =
  match result (Dev.main_try args w) with
  | Throw e =>
      {| result := Exit 1; world := world (Dev.main_try args w);
         trace := trace (Dev.main_try args w) ++ [Console Error (MLaunchFailed e)] |}
  | _ => Dev.main_try args w
  end.
Proof. rewrite Dev_script_eq. unfold Dev.main. apply try_catch_exit. Qed.

(** The dev script when nothing is launched. *)
Lemma Dev_script_undecided (args : list string) (w : World) :
  dev_target args w = None ->
  exists e,
    w_validate w = inl e /\
    Dev.script args w
    = {| result := Exit 1; world := w;
         trace := [Console Log MDevBanner; Console Log MChecking; ValidatorCall;
                   Console Error (MLaunchFailed e)] |}.
Proof.
  unfold dev_target. intros Ht.
  destruct (Dev.forceSetup args) eqn:Hs; [discriminate|].
  destruct (Dev.forceCms args) eqn:Hc; [discriminate|].
  destruct (w_validate w) as [e|v] eqn:Hv; [|discriminate].
  exists e. split; [reflexivity|].
  rewrite Dev_script_run, Dev_main_try_eq, Hs, Hc, Hv. reflexivity.
Qed.



(** The dev script once [app] is launched: its end and its reports. *)
Lemma Dev_script_launched (args : list string) (w : World) (app : App) :
  dev_target args w = Some app ->
  result (Dev.script args w) = launch_status (Exit 0) (first_event w 0) /\
  errored (trace (Dev.script args w)) = dev_errors app (first_event w 0).
Proof.
  intros Ht.
  destruct (Dev_main_try_launch args w app Ht) as (pre & Hm & He & _).
  pose proof (launchApp_result app (Dev.isProduction args) w) as Hr.
  destruct (launchApp_console app (Dev.isProduction args) w) as (_ & Hle & _).
  rewrite Dev_script_run, Hm, result_after.
  rewrite first_event_cases in *.
  unfold launch_status, dev_errors, exit_error.
  destruct (cr_events (w_children w 0)) as [|[e|code|] evs];
    try destruct (Js.strict_ne_zero code);
    rewrite Hr; cbn [result trace]; rewrite ?result_after, ?Hr;
    observe_console; rewrite ?He, ?Hle; split; reflexivity.
Qed.

(** X2. Once a target is launched, the first lifecycle event of the
    child decides how the dev script ends and what it reports: exit
    with 0 ends it normally; an 'error' event or another exit code is
    reported with the launcher's error and ends it with status 1; SIGINT
    ends it with status 0 and reports nothing; with no event it waits. *)
Theorem dev_exit_status (args : list string) (w : World) (app : App) :
  dev_target args w = Some app ->
  result (Dev.script args w) = launch_status (Exit 0) (first_event w 0) /\
  errored (trace (Dev.script args w)) = dev_errors app (first_event w 0).
Proof. exact (Dev_script_launched args w app). Qed.

Lemma dev_exit_status_witness :
  result (Dev.script ["--cms"] Posix.first_child_fails) = Exit 1 /\
  errored (trace (Dev.script ["--cms"] Posix.first_child_fails))
  = [MLaunchFailed (JsError "cms exited with code 1")].
Proof.
  apply (dev_exit_status ["--cms"] Posix.first_child_fails Cms).
  reflexivity.
Defined.

(** X3. The dev script signals its child only from its SIGINT handler:
    [child.kill('SIGINT')] is called exactly when a target was launched
    and the first event is SIGINT, and the script then exits with
    status 0 through [process.exit], not through the [catch] block. *)
Theorem dev_sigint_forwarded (args : list string) (w : World) :
  kills (trace (Dev.script args w))
  = match dev_target args w, first_event w 0 with
    | Some _, Some Sigint => ["SIGINT"]
    | _, _ => []
    end /\
  (kills (trace (Dev.script args w)) <> [] ->
   result (Dev.script args w) = Exit 0 /\
   errored (trace (Dev.script args w)) = [] /\
   exists t, trace (Dev.script args w)
             = t ++ [Recv Sigint; Console Log MShutdown; Kill "SIGINT"]).
Proof.
  destruct (dev_target args w) as [app|] eqn:Ht.
  - destruct (Dev_main_try_launch args w app Ht) as (pre & Hm & He & _ & Hk & _).
    destruct (Dev_script_launched args w app Ht) as [Hr Herr].
    destruct (launchApp_console app (Dev.isProduction args) w) as (_ & _ & Hlk & _).
    assert (Hkills : kills (trace (Dev.script args w))
                     = match first_event w 0 with
                       | Some Sigint => ["SIGINT"]
                       | _ => []
                       end).
    { rewrite Dev_script_run, Hm, result_after.
      destruct (result (Dev.launchApp app (Dev.isProduction args) w));
        cbn [trace]; observe_console; rewrite ?Hk, ?Hlk; cbn;
        rewrite ?app_nil_r; reflexivity. }
    rewrite Hkills, Hr, Herr. split; [reflexivity|].
    destruct (first_event w 0) as [[e|code|]|] eqn:Hev; try congruence.
    intros _. split; [reflexivity|]. split; [reflexivity|].
    rewrite Dev_script_run, Hm, result_after.
    rewrite (launchApp_result app (Dev.isProduction args) w).
    rewrite launchApp_eq. cbv zeta.
    destruct (getEnvWithBunx_run w) as [[env' Hg] _ _ _ _ _ _].
    rewrite Hg, await_launchApp.
    rewrite first_event_cases in Hev.
    destruct (cr_events (w_children w 0)) as [|ev evs]; [discriminate|].
    injection Hev as ->. cbn [trace after].
    eexists. rewrite !app_assoc.
    change [Recv Sigint; Console Log MShutdown; Kill "SIGINT"]
      with ([] ++ [Recv Sigint; Console Log MShutdown; Kill "SIGINT"]).
    rewrite !app_assoc. reflexivity.
  - unfold dev_target in Ht.
    destruct (Dev.forceSetup args) eqn:Hs; [discriminate|].
    destruct (Dev.forceCms args) eqn:Hc; [discriminate|].
    destruct (w_validate w) as [e|v] eqn:Hv; [|discriminate].
    rewrite Dev_script_run, Dev_main_try_eq, Hs, Hc, Hv. cbn.
    split; [reflexivity | congruence].
Qed.

Lemma dev_sigint_forwarded_witness :
  result (Dev.script [] Posix.interrupted) = Exit 0 /\
  errored (trace (Dev.script [] Posix.interrupted)) = [] /\
  exists t, trace (Dev.script [] Posix.interrupted)
            = t ++ [Recv Sigint; Console Log MShutdown; Kill "SIGINT"].
Proof.
  destruct (dev_sigint_forwarded [] Posix.interrupted) as [Hk H].
  apply H. rewrite Hk. vm_compute. discriminate.
Defined.


End DevExtras.

(** ** The build script, beyond [--all]'s order *)

Section BuildExtras.

Lemma Build_script_run (args : list string) (w : World) :
  Build.script args w =
  match result (Build.main_try args w) with
  | Throw e =>
      {| result := Exit 1; world := world (Build.main_try args w);
         trace := trace (Build.main_try args w) ++ [Console Error (MBuildFailed e)] |}
  | _ => Build.main_try args w
  end.
Proof. rewrite Build_script_eq. unfold Build.main. apply try_catch_exit. Qed.

(** One awaited build, by the first event of its child. *)
Lemma runBuild_by_event (target : string) (w : World) :
  result (Build.runBuild target w)
  = match first_event w 0 with
    | None => Hang
    | Some (ChildError e) => Throw e
    | Some (ChildExit code) =>
        if Js.strict_ne_zero code
        then Throw (JsError (target +:+ " build exited with code " +:+
                             Js.template_code code))
        else Ret tt
    | Some Sigint => Killed
    end /\
  logged (trace (Build.runBuild target w))
  = MBuilding target :: (if succeeded (first_event w 0) then [MBuilt target] else []) /\
  errored (trace (Build.runBuild target w))
  = match first_event w 0 with
    | Some (ChildError e) => [MFailedToBuild target e]
    | _ => []
    end /\
  spawned (trace (Build.runBuild target w)) = [build_argv target].
Proof.
  rewrite runBuild_result.
  destruct (runBuild_console target w) as (Hl & He & _).
  destruct (runBuild_run target w) as [Hs _ _ _ _].
  rewrite Hl, He, Hs, first_event_cases.
  destruct (cr_events (w_children w 0)) as [|[e|[[|p|p]|]|] evs];
    repeat split.
Qed.

(** The build script without [--all]. *)
Lemma Build_script_default (args : list string) (w : World) :
  ~ In "--all" args ->
  spawned (trace (Build.script args w)) = [build_argv "cms"] /\
  logged (trace (Build.script args w))
  = MBuildBanner :: MBuilding "cms"
    :: (if succeeded (first_event w 0) then [MBuilt "cms"] else []) /\
  errored (trace (Build.script args w)) = build_errors "cms" (first_event w 0) /\
  result (Build.script args w) = launch_status Killed (first_event w 0).
Proof.
  intros Hn. rewrite <- includes_In in Hn. apply not_true_is_false in Hn.
  fold (Build.buildAll args) in Hn.
  destruct (runBuild_by_event "cms" w) as (Hr & Hl & He & Hs).
  rewrite Build_script_run, Build_main_try_eq, Hn, result_after.
  unfold build_errors, launch_status, succeeded in *.
  destruct (first_event w 0) as [[e|code|]|];
    try destruct (Js.strict_ne_zero code);
    rewrite Hr; cbn [result trace negb]; rewrite ?result_after, ?Hr;
    observe; observe_console; rewrite ?Hl, ?He, ?Hs; repeat split.
Qed.

(** X5. Without [--all] the build script runs exactly one build, of
    cms. The child's first event decides the rest: exit with 0 prints
    the success line and ends the script normally; an 'error' event or
    another exit code is reported and ends it with status 1. *)
Theorem build_default_builds_cms_only (args : list string) (w : World) :
  ~ In "--all" args ->
  spawned (trace (Build.script args w)) = [build_argv "cms"] /\
  logged (trace (Build.script args w))
  = MBuildBanner :: MBuilding "cms"
    :: (if succeeded (first_event w 0) then [MBuilt "cms"] else []) /\
  errored (trace (Build.script args w)) = build_errors "cms" (first_event w 0) /\
  result (Build.script args w) = launch_status Killed (first_event w 0).
Proof. exact (Build_script_default args w). Qed.

Lemma build_default_witness :
  spawned (trace (Build.script [] Posix.first_child_fails)) = [build_argv "cms"] /\
  errored (trace (Build.script [] Posix.first_child_fails))
  = [MBuildFailed (JsError "cms build exited with code 1")] /\
  result (Build.script [] Posix.first_child_fails) = Exit 1.
Proof.
  destruct (build_default_builds_cms_only [] Posix.first_child_fails)
    as (Hs & _ & He & Hr).
  - simpl. tauto.
  - split; [exact Hs|]. split; [exact He | exact Hr].
Defined.

(** The build script with [--all]. *)
Lemma Build_script_all (args : list string) (w : World) :
  In "--all" args ->
  logged (trace (Build.script args w))
  = [MBuildBanner; MBuildingAll; MBuilding "setup-wizard"]
    ++ (if succeeded (first_event w 0)
        then [MBuilt "setup-wizard"; MBuilding "cms"]
             ++ (if succeeded (first_event w 1)
                 then [MBuilt "cms"; MAllBuilt] else [])
        else []) /\
  errored (trace (Build.script args w))
  = (if succeeded (first_event w 0)
     then build_errors "cms" (first_event w 1)
     else build_errors "setup-wizard" (first_event w 0)) /\
  result (Build.script args w)
  = (if succeeded (first_event w 0)
     then launch_status Killed (first_event w 1)
     else launch_status Killed (first_event w 0)).
Proof.
  intros H. apply includes_In in H. fold (Build.buildAll args) in H.
  destruct (runBuild_by_event "setup-wizard" w) as (Hr1 & Hl1 & He1 & _).
  destruct (runBuild_by_event "cms" (world (Build.runBuild "setup-wizard" w)))
    as (Hr2 & Hl2 & He2 & _).
  destruct (launch_world w) as (_ & Hc & _).
  unfold first_event in Hr2, Hl2, He2. rewrite Hc in Hr2, Hl2, He2.
  fold (first_event w 1) in Hr2, Hl2, He2.
  rewrite Build_script_run, Build_main_try_eq, H. cbv zeta.
  unfold build_errors, launch_status, succeeded in *.
  destruct (first_event w 0) as [[e|code|]|];
    try destruct (Js.strict_ne_zero code);
    destruct (first_event w 1) as [[e'|code'|]|];
    try destruct (Js.strict_ne_zero code');
    repeat first
      [ progress cbn [result trace negb]
      | rewrite result_after | rewrite Hr1 | rewrite Hr2
      | progress observe_console
      | rewrite Hl1 | rewrite Hl2 | rewrite He1 | rewrite He2 ];
    repeat split.
Qed.

(** X6. With [--all] the build script reports its progress build by
    build: the cms build is announced only after the success line of
    setup-wizard, the closing line "all builds completed" is printed
    exactly when both builds succeeded, the error names the build that
    failed, and the script ends as the last build it started ended. *)
Theorem build_all_progress (args : list string) (w : World) :
  In "--all" args ->
  logged (trace (Build.script args w))
  = [MBuildBanner; MBuildingAll; MBuilding "setup-wizard"]
    ++ (if succeeded (first_event w 0)
        then [MBuilt "setup-wizard"; MBuilding "cms"]
             ++ (if succeeded (first_event w 1)
                 then [MBuilt "cms"; MAllBuilt] else [])
        else []) /\
  errored (trace (Build.script args w))
  = (if succeeded (first_event w 0)
     then build_errors "cms" (first_event w 1)
     else build_errors "setup-wizard" (first_event w 0)) /\
  result (Build.script args w)
  = (if succeeded (first_event w 0)
     then launch_status Killed (first_event w 1)
     else launch_status Killed (first_event w 0)).
Proof. exact (Build_script_all args w). Qed.

Lemma build_all_progress_witness :
  logged (trace (Build.script ["--all"] Posix.no_bunx))
  = [MBuildBanner; MBuildingAll; MBuilding "setup-wizard"; MBuilt "setup-wizard";
     MBuilding "cms"; MBuilt "cms"; MAllBuilt] /\
  result (Build.script ["--all"] Posix.no_bunx) = Ret tt.
Proof.
  destruct (build_all_progress ["--all"] Posix.no_bunx) as (Hl & _ & Hr).
  - simpl. tauto.
  - split; [exact Hl | exact Hr].
Defined.

End BuildExtras.

(** ** What neither script does *)

Section Never.

Lemma launch_status_not_Throw (r : Res unit) (ev : option ProcEvent) (e : Err) :
  r <> Throw e -> launch_status r ev <> Throw e.
Proof.
  intros Hr. destruct ev as [[e'|code|]|]; cbn; try discriminate; try exact Hr.
  destruct (Js.strict_ne_zero code); discriminate.
Qed.

Lemma dev_errors_not_fatal (app : App) (ev : option ProcEvent) (e : Err) :
  ~ In (MFatal e) (dev_errors app ev).
Proof.
  destruct ev as [[e'|code|]|]; cbn; try tauto.
  - intros [H|[H|[]]]; discriminate.
  - destruct (Js.strict_ne_zero code); cbn; [|tauto].
    intros [H|[]]; discriminate.
Qed.

Lemma build_errors_not_fatal (target : string) (ev : option ProcEvent) (e : Err) :
  ~ In (MFatal e) (build_errors target ev).
Proof.
  destruct ev as [[e'|code|]|]; cbn; try tauto.
  - intros [H|[H|[]]]; discriminate.
  - destruct (Js.strict_ne_zero code); cbn; [|tauto].
    intros [H|[]]; discriminate.
Qed.

(** X7. Neither script ends with an uncaught exception, and the handler
    of the outer [main().catch(...)] never runs: [main] turns every
    throw of its [try] block into [process.exit(1)] itself, so no "Fatal
    error" line is ever printed. *)
Theorem outer_catch_never_runs (args : list string) (w : World) (e : Err) :
  result (Dev.script args w) <> Throw e /\
  ~ In (MFatal e) (errored (trace (Dev.script args w))) /\
  result (Build.script args w) <> Throw e /\
  ~ In (MFatal e) (errored (trace (Build.script args w))).
Proof.
  split; [|split; [|split]].
  - destruct (dev_target args w) as [app|] eqn:Ht.
    + destruct (Dev_script_launched args w app Ht) as [-> _].
      apply launch_status_not_Throw. discriminate.
    + destruct (Dev_script_undecided args w Ht) as (e' & _ & ->). discriminate.
  - destruct (dev_target args w) as [app|] eqn:Ht.
    + destruct (Dev_script_launched args w app Ht) as [_ ->].
      apply dev_errors_not_fatal.
    + destruct (Dev_script_undecided args w Ht) as (e' & _ & ->). cbn.
      intros [H|[]]; discriminate.
  - destruct (in_dec string_dec "--all" args) as [Ha|Ha].
    + destruct (Build_script_all args w Ha) as (_ & _ & ->).
      destruct (succeeded (first_event w 0));
        apply launch_status_not_Throw; discriminate.
    + destruct (Build_script_default args w Ha) as (_ & _ & _ & ->).
      apply launch_status_not_Throw. discriminate.
  - destruct (in_dec string_dec "--all" args) as [Ha|Ha].
    + destruct (Build_script_all args w Ha) as (_ & -> & _).
      destruct (succeeded (first_event w 0)); apply build_errors_not_fatal.
    + destruct (Build_script_default args w Ha) as (_ & _ & -> & _).
      apply build_errors_not_fatal.
Qed.

End Never.

(** ** How the children are spawned *)

Section SpawnCalls.

Lemma getEnvWithBunx_resolved (w : World) (env' : Env) :
  result (getEnvWithBunx w) = Ret env' -> resolved_from (w_env w) env'.
Proof.
  pose proof (base_env_overrides (w_env w)) as (Hn & Ht & Hl).
  pose proof (base_env_frame (w_env w)) as Hf.
  intros Hr.
  destruct (getEnvWithBunx_cases w)
    as [H | [(e & _ & _ & H) | [(s & e & _ & _ & _ & H) | (s & _ & _ & _ & H)]]];
    rewrite H in Hr; injection Hr as <-.
  1-3: repeat split; auto.
  unfold shim_env. repeat split.
  1-3: rewrite lookup_insert_ne by discriminate; assumption.
  intros k Hk Hp. rewrite lookup_insert_ne by congruence. auto.
Qed.

Lemma Dev_script_spawn_calls (args : list string) (w : World) :
  spawn_calls (trace (Dev.script args w))
  = match dev_target args w with
    | Some app => spawn_calls (trace (Dev.launchApp app (Dev.isProduction args) w))
    | None => []
    end.
Proof.
  destruct (dev_target args w) as [app|] eqn:Ht.
  - destruct (Dev_main_try_launch args w app Ht) as (pre & Hm & _ & _ & _ & Hs & _).
    rewrite Dev_script_run, Hm, result_after.
    destruct (result (Dev.launchApp app (Dev.isProduction args) w));
      cbn [trace]; observe_console; rewrite ?Hs; cbn; rewrite ?app_nil_r;
      reflexivity.
  - destruct (Dev_script_undecided args w Ht) as (e & _ & ->). reflexivity.
Qed.

Lemma Build_script_spawn_calls_eq (args : list string) (w : World) :
  spawn_calls (trace (Build.script args w))
  = spawn_calls (trace (Build.main_try args w)).
Proof.
  rewrite Build_script_eq. unfold Build.main.
  rewrite trace_try_catch_exit, spawn_calls_app.
  destruct (result (Build.main_try args w)); apply app_nil_r.
Qed.

Lemma Build_script_spawn_calls (args : list string) (w : World)
      (call : string * list string * SpawnOptions) :
  In call (spawn_calls (trace (Build.script args w))) ->
  In call (spawn_calls (trace (Build.runBuild "cms" w))) \/
  In call (spawn_calls (trace (Build.runBuild "setup-wizard" w))) \/
  In call (spawn_calls
             (trace (Build.runBuild "cms"
                       (world (Build.runBuild "setup-wizard" w))))).
Proof.
  rewrite Build_script_spawn_calls_eq, Build_main_try_eq.
  destruct (Build.buildAll args); cbv zeta.
  - destruct (result (Build.runBuild "setup-wizard" w)) as [[]| | | |].
    2-5: rewrite trace_after, spawn_calls_app, in_app_iff;
         intros [H|H]; [exact (False_ind _ H) | tauto].
    rewrite trace_after, !spawn_calls_app, !in_app_iff.
    intros [[H|H]|H]; [exact (False_ind _ H) | tauto |].
    destruct (result (Build.runBuild "cms"
                        (world (Build.runBuild "setup-wizard" w))))
      as [[]| | | |]; try tauto.
    cbn [trace] in H. rewrite spawn_calls_app, in_app_iff in H.
    destruct H as [H|H]; [tauto | exact (False_ind _ H)].
  - rewrite trace_after, spawn_calls_app, in_app_iff.
    intros [H|H]; [exact (False_ind _ H) | tauto].
Qed.

(** X8. Every child of either script is [bun], started without a shell
    and on the script's own terminal, with an environment made by the
    resolver from the inherited one: the three overrides, every other
    variable but [PATH] as inherited. The build script adds
    [FORCE_COLOR=1] on top; the dev script leaves [FORCE_COLOR] as
    inherited. *)
Theorem children_spawn_options
        (args : list string) (w : World)
        (file : string) (argv : list string) (opts : SpawnOptions) :
  (In (file, argv, opts) (spawn_calls (trace (Dev.script args w))) ->
   file = "bun" /\ stdio opts = "inherit" /\ shell opts = false /\
   resolved_from (w_env w) (env opts)) /\
  (In (file, argv, opts) (spawn_calls (trace (Build.script args w))) ->
   file = "bun" /\ stdio opts = "inherit" /\ shell opts = false /\
   env opts !! "FORCE_COLOR" = Some "1" /\
   exists env', env opts = <["FORCE_COLOR" := "1"]> env' /\
                resolved_from (w_env w) env').
Proof.
  split.
  - rewrite Dev_script_spawn_calls.
    destruct (dev_target args w) as [app|]; [|intros []].
    destruct (launchApp_console app (Dev.isProduction args) w)
      as (_ & _ & _ & _ & _ & env' & Hr & ->).
    intros [[= <- <- <-]|[]]. cbn.
    split; [reflexivity|]. split; [reflexivity|]. split; [reflexivity|].
    now apply getEnvWithBunx_resolved.
  - intros Hin. apply Build_script_spawn_calls in Hin.
    destruct (launch_world w) as (_ & _ & He).
    assert (forall target w',
              w_env w' = w_env w ->
              In (file, argv, opts) (spawn_calls (trace (Build.runBuild target w'))) ->
              file = "bun" /\ stdio opts = "inherit" /\ shell opts = false /\
              env opts !! "FORCE_COLOR" = Some "1" /\
              exists env', env opts = <["FORCE_COLOR" := "1"]> env' /\
                           resolved_from (w_env w) env') as Hone.
    { intros target w' Hw'.
      destruct (runBuild_console target w') as (_ & _ & _ & _ & env' & Hr & ->).
      intros [[= <- <- <-]|[]]. cbn.
      split; [reflexivity|]. split; [reflexivity|]. split; [reflexivity|].
      split; [apply lookup_insert_eq|].
      exists env'. split; [reflexivity|].
      rewrite <- Hw'. now apply getEnvWithBunx_resolved. }
    destruct Hin as [Hin|[Hin|Hin]].
    + exact (Hone "cms" w eq_refl Hin).
    + exact (Hone "setup-wizard" w eq_refl Hin).
    + exact (Hone "cms" _ (He "setup-wizard") Hin).
Qed.

Lemma children_spawn_options_witness :
  "bun" = "bun" /\
  stdio {| stdio := "inherit"; shell := false;
           env := base_env (w_env Posix.with_bunx) |} = "inherit" /\
  shell {| stdio := "inherit"; shell := false;
           env := base_env (w_env Posix.with_bunx) |} = false /\
  resolved_from (w_env Posix.with_bunx)
    (env {| stdio := "inherit"; shell := false;
            env := base_env (w_env Posix.with_bunx) |}).
Proof.
  pose proof (proj1 (children_spawn_options ["--cms"] Posix.with_bunx "bun"
                       ["x"; "nx"; "dev"; "cms"]
                       {| stdio := "inherit"; shell := false;
                          env := base_env (w_env Posix.with_bunx) |})) as H.
  apply H. vm_compute. left. reflexivity.
Defined.

End SpawnCalls.

(** ** The resolver, beyond its environment *)

Section ResolverExtras.

Lemma split_app_delimiter (d : ascii) (a b : string) :
  has_char d a = false ->
  Js.split d (a +:+ String d b) = a :: Js.split d b.
Proof.
  induction a as [|c a IH]; intros H.
  - rewrite app_empty_l. cbn. now rewrite Ascii.eqb_refl.
  - cbn in H. apply orb_false_elim in H as [Hc Ha].
    rewrite app_String. cbn [Js.split]. rewrite Hc, (IH Ha). reflexivity.
Qed.

(** X9. When the shim is made (alias not found, directory and symlink
    created) and the directory's path does not contain the path
    delimiter, the returned [PATH] is the directory, the delimiter and
    the inherited [PATH]; its first entry is the directory; and the
    search of lines 69-76, run again on the returned environment, now
    finds [bunx]. *)
Theorem shim_makes_bunx_resolvable (w : World) (suffix : string) :
  found_bunx w = false -> w_mkdtemp w 0 = inr suffix -> w_symlink w 0 = None ->
  has_char (w_delimiter w) (shim_prefix w +:+ suffix) = false ->
  exists env',
    result (getEnvWithBunx w) = Ret env' /\
    env' !! "PATH"
    = Some ((shim_prefix w +:+ suffix) +:+ String (w_delimiter w) "" +:+
            Js.template_str (w_env w !! "PATH")) /\
    Js.split (w_delimiter w) (Js.or_empty (env' !! "PATH"))
    = (shim_prefix w +:+ suffix)
      :: Js.split (w_delimiter w) (Js.template_str (w_env w !! "PATH")) /\
    result (bunxExists env' (world (getEnvWithBunx w))) = Ret true.
Proof.
  intros Hf Hm Hs Hd.
  rewrite (getEnvWithBunx_shim w suffix Hf Hm Hs). cbn [result world].
  eexists. split; [reflexivity|].
  assert (Hp : shim_env w (shim_prefix w +:+ suffix) !! "PATH"
               = Some ((shim_prefix w +:+ suffix) +:+ String (w_delimiter w) "" +:+
                       Js.template_str (w_env w !! "PATH")))
    by apply lookup_insert_eq.
  assert (Hsplit :
            Js.split (w_delimiter w)
              (Js.or_empty (shim_env w (shim_prefix w +:+ suffix) !! "PATH"))
            = (shim_prefix w +:+ suffix)
              :: Js.split (w_delimiter w) (Js.template_str (w_env w !! "PATH"))).
  { rewrite Hp. cbn [Js.or_empty].
    change (String (w_delimiter w) "" +:+ ?b) with (String (w_delimiter w) b).
    now apply split_app_delimiter. }
  split; [exact Hp|]. split; [exact Hsplit|].
  unfold bunxExists. cbn [w_delimiter set_fs pop_symlink pop_mkdtemp set_mkdtemp].
  rewrite Hsplit, some_existsSync. cbn [result ret existsb].
  rewrite bool_decide_eq_true_2; [reflexivity|].
  cbn [w_join w_fs set_fs pop_symlink pop_mkdtemp set_mkdtemp]. set_solver.
Qed.

Lemma shim_makes_bunx_resolvable_witness :
  exists env',
    result (getEnvWithBunx Posix.no_bunx) = Ret env' /\
    env' !! "PATH"
    = Some "/tmp/sveltycms-bunx-aaaaaa:/usr/local/bin:/usr/bin" /\
    result (bunxExists env' (world (getEnvWithBunx Posix.no_bunx))) = Ret true.
Proof.
  destruct (shim_makes_bunx_resolvable Posix.no_bunx "aaaaaa")
    as (env' & Hr & Hp & _ & Hb); try (vm_compute; reflexivity).
  exists env'. split; [exact Hr|]. split; [exact Hp | exact Hb].
Defined.

(** X10. The exit hook is registered after both creation steps, so it
    only ever names a directory created in this call that holds the
    link; and when [symlinkSync] throws after [mkdtempSync] succeeded,
    the directory exists and no hook will remove it. *)
Theorem exit_hook_only_for_complete_shim (w : World) :
  (forall dir,
     In dir (exit_hooks (trace (getEnvWithBunx w))) ->
     tmp_dirs (trace (getEnvWithBunx w)) = [dir] /\
     dir ∈ w_fs (world (getEnvWithBunx w)) /\
     w_join w dir "bunx" ∈ w_fs (world (getEnvWithBunx w))) /\
  (forall suffix e,
     found_bunx w = false -> w_mkdtemp w 0 = inr suffix -> w_symlink w 0 = Some e ->
     tmp_dirs (trace (getEnvWithBunx w)) = [shim_prefix w +:+ suffix] /\
     (shim_prefix w +:+ suffix) ∈ w_fs (world (getEnvWithBunx w)) /\
     exit_hooks (trace (getEnvWithBunx w)) = []).
Proof.
  split.
  - intros dir.
    destruct (getEnvWithBunx_cases w)
      as [H | [(e & _ & _ & H) | [(s & e & _ & _ & _ & H) | (s & _ & _ & _ & H)]]];
      rewrite H; cbn [trace world ret].
    1-3: intros [].
    intros [<-|[]]. split; [reflexivity|].
    cbn [w_fs set_fs pop_symlink pop_mkdtemp set_mkdtemp]. split; set_solver.
  - intros suffix e Hf Hm Hs.
    rewrite (getEnvWithBunx_symlink_throws w suffix e Hf Hm Hs).
    cbn [trace world]. split; [reflexivity|]. split; [|reflexivity].
    cbn [w_fs set_fs pop_symlink pop_mkdtemp set_mkdtemp]. set_solver.
Qed.

Lemma exit_hook_only_for_complete_shim_witness :
  tmp_dirs (trace (getEnvWithBunx Posix.no_link)) = ["/tmp/sveltycms-bunx-aaaaaa"] /\
  exit_hooks (trace (getEnvWithBunx Posix.no_link)) = [].
Proof.
  destruct (exit_hook_only_for_complete_shim Posix.no_link) as [_ H].
  destruct (H "aaaaaa" (SysError "EPERM")) as (Ht & _ & Hh);
    try (vm_compute; reflexivity).
  split; [exact Ht | exact Hh].
Defined.

(** X11. With [PATH] absent or empty the search looks at one path only,
    [path.join('', 'bunx')]; and when [PATH] is absent and the shim is
    made, the returned [PATH] ends in the text "undefined". *)
Theorem resolver_without_PATH (w : World) :
  (w_env w !! "PATH" = None \/ w_env w !! "PATH" = Some "") ->
  found_bunx w = bool_decide (w_join w "" "bunx" ∈ w_fs w) /\
  (forall suffix,
     w_env w !! "PATH" = None ->
     found_bunx w = false -> w_mkdtemp w 0 = inr suffix -> w_symlink w 0 = None ->
     exists env',
       result (getEnvWithBunx w) = Ret env' /\
       env' !! "PATH"
       = Some ((shim_prefix w +:+ suffix) +:+ String (w_delimiter w) ""
               +:+ "undefined")).
Proof.
  intros Hp. split.
  - unfold found_bunx. destruct Hp as [-> | ->]; cbn; apply orb_false_r.
  - intros suffix Hn Hf Hm Hs.
    rewrite (getEnvWithBunx_shim w suffix Hf Hm Hs). cbn [result].
    eexists. split; [reflexivity|].
    unfold shim_env. rewrite lookup_insert_eq, Hn. reflexivity.
Qed.

Lemma resolver_without_PATH_witness :
  exists env',
    result (getEnvWithBunx Posix.no_path) = Ret env' /\
    env' !! "PATH" = Some "/tmp/sveltycms-bunx-aaaaaa:undefined".
Proof.
  destruct (resolver_without_PATH Posix.no_path) as [_ H].
  - left. vm_compute. reflexivity.
  - destruct (H "aaaaaa") as (env' & Hr & Hp); try (vm_compute; reflexivity).
    exists env'. split; [exact Hr | exact Hp].
Defined.

End ResolverExtras.

(** ** [NODE_OPTIONS] *)

Section NodeOptions.

Lemma trimStart_blank (s : string) :
  Js.trimStart s = "" -> Js.trimStart (s +:+ " ") = "".
Proof.
  induction s as [|c s IH]; [reflexivity|].
  rewrite app_String. cbn [Js.trimStart].
  destruct (Js.is_white_space c); [exact IH | discriminate].
Qed.

Lemma trimStart_black (s x : string) :
  starts_black s = true -> Js.trimStart (s +:+ x) = s +:+ x.
Proof.
  destruct s as [|c s]; [discriminate|]. cbn [starts_black].
  intros H. apply negb_true_iff in H.
  rewrite app_String. cbn [Js.trimStart]. now rewrite H.
Qed.

Lemma trimStart_result (s : string) :
  Js.trimStart s = "" \/ starts_black (Js.trimStart s) = true.
Proof.
  induction s as [|c s IH]; [left; reflexivity|].
  cbn [Js.trimStart]. destruct (Js.is_white_space c) eqn:E; [exact IH|].
  right. cbn [starts_black]. now rewrite E.
Qed.

Lemma starts_black_app (s x : string) :
  starts_black s = true -> starts_black (s +:+ x) = true.
Proof. destruct s; [discriminate|]. rewrite app_String. auto. Qed.

Lemma base_env_NODE_OPTIONS (penv : Env) :
  base_env penv !! "NODE_OPTIONS"
  = Some (Js.trimStart (Js.or_empty (penv !! "NODE_OPTIONS") +:+ " ")
          +:+ NO_DEPRECATION).
Proof. apply base_env_overrides. Qed.

(** X12. How [NODE_OPTIONS] is augmented. An inherited value that is
    absent, empty or all white space gives exactly "--no-deprecation".
    An inherited value that starts with a character that is not white
    space is kept whole and gets " --no-deprecation" appended, whether
    or not it holds the flag already: the value the resolver makes is
    itself such a value, so resolving an environment that was already
    resolved appends the flag a second time. *)
Theorem node_options_appended_not_deduplicated (penv : Env) :
  (Js.trimStart (Js.or_empty (penv !! "NODE_OPTIONS")) = "" ->
   base_env penv !! "NODE_OPTIONS" = Some "--no-deprecation") /\
  (forall old,
     penv !! "NODE_OPTIONS" = Some old -> starts_black old = true ->
     base_env penv !! "NODE_OPTIONS" = Some (old +:+ " --no-deprecation")) /\
  (exists v,
     base_env penv !! "NODE_OPTIONS" = Some v /\
     base_env (base_env penv) !! "NODE_OPTIONS"
     = Some (v +:+ " --no-deprecation")).
Proof.
  assert (Hb : forall q old,
             q !! "NODE_OPTIONS" = Some old -> starts_black old = true ->
             base_env q !! "NODE_OPTIONS" = Some (old +:+ " --no-deprecation")).
  { intros q old Ho Hs. rewrite base_env_NODE_OPTIONS, Ho. cbn [Js.or_empty].
    rewrite (trimStart_black old " " Hs), string_app_assoc. reflexivity. }
  split; [|split].
  - intros H. rewrite base_env_NODE_OPTIONS, (trimStart_blank _ H). reflexivity.
  - exact (Hb penv).
  - eexists. split; [apply base_env_NODE_OPTIONS|].
    apply Hb; [apply base_env_NODE_OPTIONS|].
    destruct (trimStart_result (Js.or_empty (penv !! "NODE_OPTIONS") +:+ " "))
      as [-> | H]; [reflexivity | now apply starts_black_app].
Qed.

Lemma node_options_witness :
  base_env {[ "NODE_OPTIONS" := "--no-deprecation" ]} !! "NODE_OPTIONS"
  = Some "--no-deprecation --no-deprecation" /\
  base_env {[ "NODE_OPTIONS" := "  " ]} !! "NODE_OPTIONS"
  = Some "--no-deprecation".
Proof.
  split.
  - destruct (node_options_appended_not_deduplicated
                {[ "NODE_OPTIONS" := "--no-deprecation" ]}) as (_ & H & _).
    apply (H "--no-deprecation"); vm_compute; reflexivity.
  - destruct (node_options_appended_not_deduplicated
                {[ "NODE_OPTIONS" := "  " ]}) as (H & _).
    apply H. vm_compute. reflexivity.
Defined.

End NodeOptions.

(** ** Banners and panels *)

Section Banner.

Import Panel.

Lemma concat_replicate_singleton (n : nat) (x : N) :
  concat (replicate n [x]) = replicate n x.
Proof. induction n as [|n IH]; [reflexivity|]. cbn. now rewrite IH. Qed.

Lemma repeat_nonneg (x : N) (count : Z) :
  (0 <= count)%Z -> Panel.repeat [x] count = Some (replicate (Z.to_nat count) x).
Proof.
  intros H. unfold Panel.repeat.
  destruct (Z.ltb_spec count 0); [lia|]. now rewrite concat_replicate_singleton.
Qed.

Lemma banner_template_layout (c text : ustring) (padding : Z) :
  (0 <= padding)%Z ->
  banner_template c text 65 padding
  = if (65 - padding - Z.of_nat (length text) <? 0)%Z then None
    else Some (banner_layout c text (Z.to_nat padding)
                 (Z.to_nat (65 - padding - Z.of_nat (length text)))).
Proof.
  intros Hp. unfold banner_template.
  rewrite (repeat_nonneg BOX_H 65) by lia.
  rewrite (repeat_nonneg SP padding) by exact Hp.
  destruct (Z.ltb_spec (65 - padding - Z.of_nat (length text)) 0) as [Hn|Hn].
  - unfold Panel.repeat at 1.
    destruct (Z.ltb_spec (65 - padding - Z.of_nat (length text)) 0); [reflexivity | lia].
  - rewrite (repeat_nonneg SP _ Hn). reflexivity.
Qed.

Lemma padding_nat (n : nat) :
  Z.max 0 ((65 - Z.of_nat n - 2) / 2) = Z.of_nat ((63 - n) / 2).
Proof.
  destruct (Nat.le_gt_cases n 63) as [H|H].
  - rewrite Z.max_r by (apply Z.div_pos; lia).
    replace (65 - Z.of_nat n - 2)%Z with (Z.of_nat (63 - n)) by lia.
    change 2%Z with (Z.of_nat 2). now rewrite <- Nat2Z.inj_div.
  - replace (63 - n) with 0 by lia.
    assert ((65 - Z.of_nat n - 2) / 2 < 0)%Z by (apply Z.div_lt_upper_bound; lia).
    rewrite Z.max_l by lia. reflexivity.
Qed.

Lemma half_bounds (m : nat) : 2 * (m / 2) <= m < 2 * (m / 2) + 2.
Proof.
  pose proof (Nat.div_mod_eq m 2). pose proof (Nat.mod_upper_bound m 2). lia.
Qed.

(** X13. [printBanner] throws exactly when the text is longer than the
    banner is wide, 65 code units: the count of the second [repeat] is
    then negative. Otherwise the text row is as wide as the border: the
    spaces before the text, the text and the spaces after it make 65;
    a text of up to 63 units gets [(63 - length) / 2] spaces before it
    and two or three more after it than before. The banner of build.ts
    is that of dev.ts in green. *)
Theorem printBanner_layout (text : ustring) (color : Color) :
  let l := (63 - length text) / 2 in
  let r := 65 - l - length text in
  Panel.printBanner text color
  = (if Nat.ltb 65 (length text) then None
     else Some (banner_layout (colors color) text l r)) /\
  (length text <= 65 -> l + length text + r = 65) /\
  (length text <= 63 -> l + 2 <= r <= l + 3) /\
  build_printBanner text = Panel.printBanner text green.
Proof.
  cbv zeta. pose proof (half_bounds (63 - length text)) as Hh.
  split; [|split; [|split]].
  - unfold Panel.printBanner. cbv zeta.
    rewrite banner_template_layout by lia.
    rewrite padding_nat.
    destruct (Nat.ltb_spec 65 (length text)) as [Hl|Hl].
    + destruct (Z.ltb_spec
                  (65 - Z.of_nat ((63 - length text) / 2)
                   - Z.of_nat (length text)) 0); [reflexivity | lia].
    + destruct (Z.ltb_spec
                  (65 - Z.of_nat ((63 - length text) / 2)
                   - Z.of_nat (length text)) 0) as [Hn|Hn]; [lia|].
      f_equal. f_equal; lia.
  - lia.
  - lia.
  - reflexivity.
Qed.

Lemma printBanner_layout_witness :
  (63 - length Panel.dev_banner_text) / 2 + 2
  <= 65 - (63 - length Panel.dev_banner_text) / 2 - length Panel.dev_banner_text
  <= (63 - length Panel.dev_banner_text) / 2 + 3.
Proof.
  destruct (printBanner_layout Panel.dev_banner_text green) as (_ & _ & H & _).
  apply H. replace (length Panel.dev_banner_text) with 33 by reflexivity. lia.
Defined.

(** The banners the two scripts print fit. *)
Example the_banners_fit :
  length dev_banner_text = 33 /\ length build_banner_text = 20 /\
  is_Some (Panel.printBanner dev_banner_text green) /\
  is_Some (build_printBanner build_banner_text).
Proof. repeat split; vm_compute; eauto. Qed.

End Banner.

Section SetupPanel.

Import Panel.

Lemma one_line_app (a b : ustring) :
  one_line (a ++ b) = one_line a && one_line b.
Proof. apply forallb_app. Qed.

Lemma one_line_spaces (n : nat) : one_line (replicate n SP) = true.
Proof. induction n as [|n IH]; [reflexivity | exact IH]. Qed.

Lemma one_line_padEnd (s : ustring) (n : nat) :
  one_line (padEnd s n) = one_line s.
Proof.
  unfold padEnd. rewrite one_line_app, one_line_spaces. apply andb_true_r.
Qed.

Lemma one_line_reason_row (v : SetupValidation) :
  one_line (reason_row v) = one_line (units (reason_or_default v)).
Proof.
  unfold reason_row. rewrite !one_line_app, one_line_padEnd.
  cbn. apply andb_true_r.
Qed.

Lemma one_line_field_row (f : string) :
  one_line (field_row f) = one_line (units f).
Proof.
  unfold field_row. rewrite !one_line_app, one_line_padEnd.
  cbn. apply andb_true_r.
Qed.

Lemma one_line_warning_row (x : string) :
  one_line (warning_row x) = one_line (units x).
Proof.
  unfold warning_row. rewrite !one_line_app, one_line_padEnd.
  cbn. apply andb_true_r.
Qed.

Lemma lines_app (a b : ustring) :
  one_line a = true -> lines (a ++ NL :: b) = a :: lines b.
Proof.
  induction a as [|c a IH]; intros H; [reflexivity|].
  cbn [one_line forallb] in H. apply andb_true_iff in H as [Hc Ha].
  apply negb_true_iff in Hc.
  cbn [app lines]. rewrite Hc, (IH Ha). reflexivity.
Qed.

Lemma join_cons (x y : ustring) (rows : list ustring) :
  join [NL] (x :: y :: rows) = x ++ NL :: join [NL] (y :: rows).
Proof. reflexivity. Qed.

Lemma lines_join (rows : list ustring) (x rest : ustring) :
  forallb one_line (x :: rows) = true ->
  lines (join [NL] (x :: rows) ++ NL :: rest) = (x :: rows) ++ lines rest.
Proof.
  revert x. induction rows as [|y rows IH]; intros x H.
  - cbn in H. rewrite andb_true_r in H. cbn [join map concat].
    rewrite app_nil_r. now apply lines_app.
  - cbn [forallb] in H. apply andb_true_iff in H as [Hx H].
    rewrite join_cons, <- app_assoc. cbn [app].
    rewrite (lines_app x _ Hx), (IH y H). reflexivity.
Qed.

Lemma forallb_map_rows (row : string -> ustring) (xs : list string) :
  (forall x, one_line (row x) = one_line (units x)) ->
  forallb one_line (map row xs) = forallb (fun x => one_line (units x)) xs.
Proof.
  intros H. induction xs as [|x xs IH]; [reflexivity|].
  cbn. now rewrite H, IH.
Qed.

(** A section of the panel and what follows it, line by line. *)
Lemma lines_section (header : ustring) (row : string -> ustring)
      (xs : option (list string)) (rest : ustring) :
  one_line header = true ->
  (forall x, one_line (row x) = one_line (units x)) ->
  forallb (fun x => one_line (units x)) (default [] xs) = true ->
  lines ((if present xs then
            BLANK ++ [NL] ++ header ++ [NL] ++ join [NL] (map row (default [] xs))
          else []) ++ NL :: rest)
  = (if present xs then [BLANK; header] ++ map row (default [] xs) else [[]])
    ++ lines rest.
Proof.
  intros Hh Hrow Hxs. destruct xs as [[|x xs]|]; try reflexivity.
  change (default [] (Some (x :: xs))) with (x :: xs) in *.
  cbn [present]. rewrite <- !app_assoc. cbn [app].
  rewrite (lines_app BLANK) by reflexivity.
  rewrite (lines_app header) by exact Hh.
  cbn [map]. rewrite lines_join.
  - reflexivity.
  - change (forallb one_line (map row (x :: xs)) = true).
    rewrite forallb_map_rows by exact Hrow. exact Hxs.
Qed.

(** X14. The setup panel, line by line, for a verdict whose reason,
    fields and warnings hold no line feed: after the frame's head and
    the reason row comes a blank row, a header and one row per missing
    field, in order, when there are missing fields, and a single empty
    line when the list is absent or empty; the same for the warnings;
    then the closing rows. *)
Theorem printValidationError_lines (v : SetupValidation) :
  one_line (units (reason_or_default v)) = true ->
  forallb (fun f => one_line (units f)) (default [] (missingFields v)) = true ->
  forallb (fun x => one_line (units x)) (default [] (warnings v)) = true ->
  lines (printValidationError v) = panel_rows v.
Proof.
  intros Hr Hf Hw. unfold printValidationError, panel_rows.
  cbn [app]. change (lines (NL :: ?s)) with ([] :: lines s). f_equal.
  rewrite (lines_app TOP) by reflexivity. f_equal.
  rewrite (lines_app TITLE) by reflexivity. f_equal.
  rewrite (lines_app SEP) by reflexivity. f_equal.
  rewrite (lines_app BLANK) by reflexivity. f_equal.
  rewrite (lines_app (reason_row v)) by (now rewrite one_line_reason_row). f_equal.
  rewrite (lines_section FIELDS_HEADER field_row)
    by (reflexivity || apply one_line_field_row || exact Hf).
  f_equal.
  rewrite (lines_section WARNINGS_HEADER warning_row)
    by (reflexivity || apply one_line_warning_row || exact Hw).
  reflexivity.
Qed.

Lemma printValidationError_lines_witness :
  lines (printValidationError
           {| complete := false; reason := Some "Missing database URL";
              missingFields := Some ["DB_URL"]; warnings := Some [] |})
  = panel_rows
      {| complete := false; reason := Some "Missing database URL";
         missingFields := Some ["DB_URL"]; warnings := Some [] |}.
Proof.
  apply printValidationError_lines; reflexivity.
Defined.

End SetupPanel.

Section PanelWidths.

Import Panel.

Lemma length_units (s : string) : length (units s) = String.length s.
Proof.
  unfold units. rewrite length_map.
  induction s as [|c s IH]; [reflexivity|]. cbn. now rewrite IH.
Qed.

Lemma length_padEnd (s : ustring) (n : nat) :
  length (padEnd s n) = Nat.max n (length s).
Proof. unfold padEnd. rewrite length_app, length_replicate. lia. Qed.

(** X15. [padEnd] pads and never cuts. The reason row and a field row
    are as wide as the frame, 65 code units, when the text fits its
    width (61 for the reason, 57 for a field); a longer text is kept
    whole and widens its row by the excess. A warning row is one unit
    wider, 66, for the variation selector after the sign. The reason
    shown for an absent or empty reason is "Configuration missing". *)
Theorem panel_row_widths (v : SetupValidation) (f x : string) :
  length TOP = 65 /\ length BLANK = 65 /\
  length (reason_row v) = 65 + (String.length (reason_or_default v) - 61) /\
  length (field_row f) = 65 + (String.length f - 57) /\
  length (warning_row x) = 66 + (String.length x - 56) /\
  (reason v = None \/ reason v = Some "" ->
   reason_or_default v = "Configuration missing").
Proof.
  split; [reflexivity|]. split; [reflexivity|].
  unfold reason_row, field_row, warning_row.
  rewrite !length_app, !length_padEnd, !length_units. cbn [length String.length].
  repeat split; try lia.
  intros [H|H]; unfold reason_or_default; now rewrite H.
Qed.

Lemma panel_row_widths_witness :
  reason_or_default
    {| complete := false; reason := Some ""; missingFields := None;
       warnings := None |}
  = "Configuration missing".
Proof.
  apply (panel_row_widths
           {| complete := false; reason := Some ""; missingFields := None;
              warnings := None |} "" "").
  right. reflexivity.
Defined.

End PanelWidths.

(** ** Shim directories, child by child *)

Section ShimPerChild.

Lemma succeeded_head (w : World) (n : nat) :
  succeeded (first_event w n) = true
  <-> head (cr_events (w_children w n)) = Some (ChildExit (Some 0%Z)).
Proof.
  unfold first_event, succeeded.
  destruct (head (cr_events (w_children w n))) as [[e|code|]|];
    try (split; discriminate).
  rewrite negb_true_iff, strict_ne_zero_false. split; congruence.
Qed.

(** The dev script calls the resolver once, for the child it spawns. *)
Lemma Dev_script_per_child (args : list string) (w : World) :
  tmp_dirs (trace (Dev.script args w))
  = match dev_target args w with
    | Some _ => tmp_dirs (trace (getEnvWithBunx w))
    | None => []
    end /\
  length (spawned (trace (Dev.script args w)))
  = match dev_target args w with
    | Some _ => 1
    | None => 0
    end.
Proof.
  split.
  - rewrite Dev_script_tmp_dirs, Dev_main_try_eq. unfold dev_target.
    destruct (launchApp_run SetupWizard (Dev.isProduction args) w) as [_ _ _ Ts _].
    destruct (launchApp_run Cms (Dev.isProduction args) w) as [_ _ _ Tc _].
    destruct (Dev.forceSetup args); [observe; exact Ts|].
    destruct (Dev.forceCms args); [observe; exact Tc|].
    destruct (w_validate w) as [e|v]; [reflexivity|].
    destruct (warning_lines_quiet v) as (_ & _ & Wt).
    destruct (complete v); cbn [negb]; observe; rewrite ?Wt; assumption.
  - pose proof (Dev_script_decision args w) as H. cbv zeta in H.
    unfold dev_target.
    destruct (Dev.forceSetup args); [destruct H as [_ ->]; reflexivity|].
    destruct (Dev.forceCms args); [destruct H as [_ ->]; reflexivity|].
    destruct H as [_ H].
    destruct (w_validate w) as [e|v]; rewrite H; reflexivity.
Qed.

(** The build script calls the resolver once for each child it spawns:
    for the first child, and with [--all] for the second if the first
    exited with 0. *)
Lemma Build_script_per_child (args : list string) (w : World) :
  tmp_dirs (trace (Build.script args w))
  = tmp_dirs (trace (getEnvWithBunx w))
    ++ (if Js.includes args "--all" && succeeded (first_event w 0)
        then tmp_dirs (trace (getEnvWithBunx
                                (world (Build.runBuild "setup-wizard" w))))
        else []) /\
  length (spawned (trace (Build.script args w)))
  = 1 + (if Js.includes args "--all" && succeeded (first_event w 0)
         then 1 else 0).
Proof.
  destruct (runBuild_by_event "setup-wizard" w) as (Hr1 & _).
  destruct (runBuild_run "setup-wizard" w) as [S1 _ _ T1 _].
  destruct (runBuild_run "cms" (world (Build.runBuild "setup-wizard" w)))
    as [S2 _ _ T2 _].
  destruct (runBuild_run "cms" w) as [S0 _ _ T0 _].
  rewrite Build_script_tmp_dirs, Build_script_spawned, Build_main_try_eq.
  unfold Build.buildAll.
  destruct (Js.includes args "--all"); cbv zeta; cbn [andb].
  - unfold succeeded.
    destruct (first_event w 0) as [[e|code|]|];
      try destruct (Js.strict_ne_zero code);
      rewrite Hr1; cbn [negb]; observe; rewrite ?T1, ?S1;
      try (split; cbn; rewrite ?app_nil_r; reflexivity).
    destruct (result (Build.runBuild "cms"
                        (world (Build.runBuild "setup-wizard" w))))
      as [[]| | | |];
      cbn [trace]; observe; rewrite T2, S2; cbn; rewrite ?app_nil_r;
      split; reflexivity.
  - observe. rewrite T0, S0. cbn. rewrite app_nil_r. split; reflexivity.
Qed.

(** C2, amended: every call of the resolver creates at most one
    temporary directory, and exactly one when the alias is not found and
    [mkdtempSync] succeeds. Each script calls the resolver once for each
    child it spawns: the directories of a run are those of these calls,
    so a run creates at most as many as it spawns children, at most one
    for the dev script and for the build script without [--all], at
    most two with [--all]. With [--all] it creates exactly two when the
    first build exits with 0 and, at each of the two calls, the alias is
    not found and [mkdtempSync] succeeds. *)
Theorem C2_one_shim_directory_per_spawn (args : list string) (w : World) :
  length (tmp_dirs (trace (getEnvWithBunx w))) <= 1 /\
  (forall suffix,
     found_bunx w = false -> w_mkdtemp w 0 = inr suffix ->
     tmp_dirs (trace (getEnvWithBunx w)) = [shim_prefix w +:+ suffix]) /\
  (tmp_dirs (trace (Dev.script args w))
   = match dev_target args w with
     | Some _ => tmp_dirs (trace (getEnvWithBunx w))
     | None => []
     end /\
   length (spawned (trace (Dev.script args w)))
   = match dev_target args w with
     | Some _ => 1
     | None => 0
     end) /\
  (tmp_dirs (trace (Build.script args w))
   = tmp_dirs (trace (getEnvWithBunx w))
     ++ (if Js.includes args "--all" && succeeded (first_event w 0)
         then tmp_dirs (trace (getEnvWithBunx
                                 (world (Build.runBuild "setup-wizard" w))))
         else []) /\
   length (spawned (trace (Build.script args w)))
   = 1 + (if Js.includes args "--all" && succeeded (first_event w 0)
          then 1 else 0)) /\
  length (tmp_dirs (trace (Dev.script args w))) <= 1 /\
  length (tmp_dirs (trace (Dev.script args w)))
  <= length (spawned (trace (Dev.script args w))) /\
  (~ In "--all" args ->
   length (tmp_dirs (trace (Build.script args w))) <= 1) /\
  length (tmp_dirs (trace (Build.script args w)))
  <= length (spawned (trace (Build.script args w))) /\
  length (spawned (trace (Build.script args w))) <= 2 /\
  (forall suffix1 suffix2,
     In "--all" args ->
     head (cr_events (w_children w 0)) = Some (ChildExit (Some 0%Z)) ->
     found_bunx w = false -> w_mkdtemp w 0 = inr suffix1 ->
     found_bunx (world (Build.runBuild "setup-wizard" w)) = false ->
     w_mkdtemp (world (Build.runBuild "setup-wizard" w)) 0 = inr suffix2 ->
     tmp_dirs (trace (Build.script args w))
     = [shim_prefix w +:+ suffix1;
        shim_prefix (world (Build.runBuild "setup-wizard" w)) +:+ suffix2]).
Proof.
  assert (Hone : forall w' suffix,
             found_bunx w' = false -> w_mkdtemp w' 0 = inr suffix ->
             tmp_dirs (trace (getEnvWithBunx w')) = [shim_prefix w' +:+ suffix]).
  { intros w' suffix Hf Hm. destruct (w_symlink w' 0) as [e|] eqn:Hl.
    - rewrite (getEnvWithBunx_symlink_throws w' suffix e Hf Hm Hl). reflexivity.
    - rewrite (getEnvWithBunx_shim w' suffix Hf Hm Hl). reflexivity. }
  pose proof (Build_script_tmp_dirs_le args w) as [Hb Hs].
  pose proof (Dev_script_per_child args w) as [Hdt Hds].
  pose proof (Build_script_per_child args w) as [Hbt Hbs].
  pose proof (rr_tmp_dirs _ _ (getEnvWithBunx_run w)) as Hle.
  split; [exact Hle|]. split; [intros suffix; apply Hone|].
  split; [split; assumption|]. split; [split; assumption|].
  split; [apply Dev_script_tmp_dirs_le|].
  split.
  { rewrite Hdt, Hds. destruct (dev_target args w); [exact Hle | reflexivity]. }
  split.
  { intros Hn. rewrite <- includes_In in Hn. fold (Build.buildAll args) in Hn.
    destruct (Build.buildAll args); [congruence | lia]. }
  split; [exact Hb|]. split; [destruct (Build.buildAll args); lia|].
  intros s1 s2 Ha Hev Hf1 Hm1 Hf2 Hm2.
  apply includes_In in Ha. apply succeeded_head in Hev.
  rewrite Hbt, Ha, Hev. cbn [andb].
  rewrite (Hone w s1 Hf1 Hm1), (Hone _ s2 Hf2 Hm2). reflexivity.
Qed.

(** The amended C2 on a machine without [bunx]: one directory for one
    call, two for a build with [--all] whose first build succeeds. *)
Lemma C2_one_shim_directory_witness :
  tmp_dirs (trace (getEnvWithBunx Posix.no_bunx)) = ["/tmp/sveltycms-bunx-aaaaaa"] /\
  length (tmp_dirs (trace (Build.script [] Posix.no_bunx))) <= 1 /\
  tmp_dirs (trace (Build.script ["--all"] Posix.no_bunx))
  = ["/tmp/sveltycms-bunx-aaaaaa"; "/tmp/sveltycms-bunx-bbbbbb"].
Proof.
  destruct (C2_one_shim_directory_per_spawn [] Posix.no_bunx)
    as (_ & Hone & _ & _ & _ & _ & Hbuild & _).
  destruct (C2_one_shim_directory_per_spawn ["--all"] Posix.no_bunx)
    as (_ & _ & _ & _ & _ & _ & _ & _ & _ & Htwo).
  split; [|split].
  - apply (Hone "aaaaaa"); vm_compute; reflexivity.
  - apply Hbuild. simpl. tauto.
  - rewrite (Htwo "aaaaaa" "bbbbbb").
    + vm_compute. reflexivity.
    + simpl. tauto.
    + reflexivity.
    + vm_compute. reflexivity.
    + reflexivity.
    + vm_compute. reflexivity.
    + vm_compute. reflexivity.
Defined.

End ShimPerChild.
